(** * The Star Wars character browser (Next.js lecture) and the recipe router

    A shallow embedding of the JavaScript of
    [04-advanced-react/4c-next/readme.md] (the pages [About], [Contact],
    [Home] and [Character]) and of
    [04-advanced-react/4b-redux-toolkit/lesson/src/App.js] (the router).

    JavaScript values are a small inductive type, JSX is a tree of elements,
    and the effectful code (network requests, component state, exceptions and
    promise rejections) runs in a state-and-exception monad over an explicit
    program state. *)

From Stdlib Require Import String Ascii List ZArith QArith Qround Lia Bool.
From Stdlib Require Import DecimalString Permutation.
Import ListNotations.

#[local] Set Warnings "-register-all".
Local Open Scope list_scope.
Local Open Scope string_scope.

(** ** JavaScript values *)

(** The values a parsed JSON body can hold, and [undefined].  This program
    prints the Numbers it holds and tests them in an [if], and does nothing
    else with them, so a Number is carried as the text that Number::toString
    gives for it ([4], [1.5], [1e+21], [Infinity]; both zeros are [0]).  A
    string is carried as its UTF-8 text. *)
Inductive jsval : Type :=
| JUndefined
| JNull
| JBool (b : bool)
| JNum (shown : string)
| JStr (s : string)
| JArr (items : list jsval)
| JObj (fields : list (string * jsval)).

(** What a throw or a rejected promise carries. *)
Inductive jserror : Type :=
| TypeError (what : string)
| ReferenceError (name : string)
| SyntaxError (what : string)
| NetworkError (what : string).

Inductive result (A : Type) : Type :=
| Ok (a : A)
| Throw (e : jserror).
Arguments Ok {A} a.
Arguments Throw {A} e.

Definition nullish (v : jsval) : bool :=
  match v with
  | JUndefined | JNull => true
  | _ => false
  end.

(** ToBoolean, as the test of an [if] applies it. *)
Definition truthy (v : jsval) : bool :=
  match v with
  | JUndefined | JNull => false
  | JBool b => b
  | JNum shown => negb ((shown =? "0") || (shown =? "NaN"))
  | JStr s => negb (s =? "")
  | JArr _ | JObj _ => true
  end.

Definition string_of_Z (n : Z) : string :=
  NilZero.string_of_int (Z.to_int n).

(** The Number of a length. *)
Definition number_of_nat (n : nat) : jsval :=
  JNum (string_of_Z (Z.of_nat n)).

(** The text ToString gives for a value, when it gives one ([printable]
    below says when).  An array joins its elements with commas, a null or
    undefined element giving the empty string; an object prints through
    Object.prototype.toString. *)
Fixpoint ToString (v : jsval) : string :=
  match v with
  | JUndefined => "undefined"
  | JNull => "null"
  | JBool true => "true"
  | JBool false => "false"
  | JNum shown => shown
  | JStr s => s
  | JArr items =>
      let elt x := if nullish x then "" else ToString x in
      (fix join (l : list jsval) : string :=
         match l with
         | [] => ""
         | [x] => elt x
         | x :: rest => elt x ++ "," ++ join rest
         end) items
  | JObj _ => "[object Object]"
  end.

Fixpoint has_field (k : string) (fields : list (string * jsval)) : bool :=
  match fields with
  | [] => false
  | (k', _) :: rest => (k' =? k) || has_field k rest
  end.

(** ToString returns on every value but one kind.  An object is converted
    through its [toString] and then its [valueOf]: a parsed object with a
    property [toString] of its own (no parsed value is callable) falls back
    on the inherited [valueOf], which returns the object itself, and the
    conversion throws.  An array converts its elements in turn. *)
Fixpoint printable (v : jsval) : bool :=
  match v with
  | JObj fields => negb (has_field "toString" fields)
  | JArr items => forallb printable items
  | _ => true
  end.

(** One [${...}] hole of a template literal. *)
Definition template_hole (v : jsval) : result string :=
  if printable v then Ok (ToString v)
  else Throw (TypeError "Cannot convert object to primitive value").

(** The [length] of a string counts UTF-16 code units: one for a character
    of one to three bytes of UTF-8, two for a character of four bytes. *)
Definition code_units (byte : ascii) : nat :=
  let b := nat_of_ascii byte in
  if (b <? 128)%nat then 1%nat
  else if (b <? 192)%nat then 0%nat
  else if (b <? 240)%nat then 1%nat
  else 2%nat.

Fixpoint utf16_length (s : string) : nat :=
  match s with
  | EmptyString => 0%nat
  | String byte rest => (code_units byte + utf16_length rest)%nat
  end.

Fixpoint lookup_field (k : string) (fields : list (string * jsval)) : jsval :=
  match fields with
  | [] => JUndefined
  | (k', v) :: rest => if k' =? k then v else lookup_field k rest
  end.

(** Property read [v.k] for the property names this program reads
    ([results], [url], [name], [films], [length], ...).  Reading a property
    of [null] or [undefined] throws; an absent property is [undefined]. *)
Definition get_prop (v : jsval) (k : string) : result jsval :=
  match v with
  | JUndefined => Throw (TypeError ("Cannot read properties of undefined (reading '" ++ k ++ "')"))
  | JNull => Throw (TypeError ("Cannot read properties of null (reading '" ++ k ++ "')"))
  | JObj fields => Ok (lookup_field k fields)
  | JArr items => Ok (if k =? "length" then number_of_nat (List.length items) else JUndefined)
  | JStr s => Ok (if k =? "length" then number_of_nat (utf16_length s) else JUndefined)
  | JBool _ | JNum _ => Ok JUndefined
  end.

(** [s.split(sep)] for a one-character separator: the pieces between the
    separators, in order, empty pieces included. *)
Fixpoint split_from (sep : ascii) (cur : string) (s : string) : list string :=
  match s with
  | EmptyString => [cur]
  | String c rest =>
      if Ascii.eqb c sep then cur :: split_from sep "" rest
      else split_from sep (cur ++ String c "") rest
  end.

Definition split (sep : ascii) (s : string) : list string :=
  split_from sep "" s.

(** Method call [v.split(sep)]: only a string has the method. *)
Definition call_split (v : jsval) (sep : ascii) : result jsval :=
  match v with
  | JStr s => Ok (JArr (map JStr (split sep s)))
  | JUndefined => Throw (TypeError "Cannot read properties of undefined (reading 'split')")
  | JNull => Throw (TypeError "Cannot read properties of null (reading 'split')")
  | _ => Throw (TypeError "split is not a function")
  end.

(** Indexing [v[i]] by a number: out of range is [undefined]. *)
Definition index (v : jsval) (i : Z) : result jsval :=
  match v with
  | JUndefined | JNull => Throw (TypeError "Cannot read properties of undefined")
  | JArr items => Ok (if (i <? 0)%Z then JUndefined else nth (Z.to_nat i) items JUndefined)
  | JStr s =>
      Ok (if (i <? 0)%Z then JUndefined
          else match String.get (Z.to_nat i) s with
               | Some c => JStr (String c "")
               | None => JUndefined
               end)
  | _ => Ok JUndefined
  end.

(** ** JSX *)

(** A JSX tag is a host element ([div], [li], ...) or a component referred to
    by name ([Layout], [Link], [Route], ...). *)
Inductive tag : Type :=
| Host (name : string)
| Component (name : string).

(** The element tree a component returns.  An attribute value is a node too:
    a string literal is [Text], a [{...}] hole is [Expr] (or an element, as in
    [element={<RecipeList />}]), a function passed as a handler is [Fn].  An
    array of elements in a hole is spliced into the children. *)
Inductive node : Type :=
| Elem (t : tag) (props : list (string * node)) (children : list node)
| Text (s : string)
| Expr (v : jsval)
| Fn (name : string).

Definition tag_eqb (a b : tag) : bool :=
  match a, b with
  | Host x, Host y => x =? y
  | Component x, Component y => x =? y
  | _, _ => false
  end.

(** The elements with a given tag, in document order. *)
Fixpoint elements_by_tag (t : tag) (n : node) : list node :=
  match n with
  | Elem t' _ children =>
      ((if tag_eqb t t' then [n] else []) ++ flat_map (elements_by_tag t) children)%list
  | _ => []
  end.

(** The values of the [{...}] holes among the children, in document order. *)
Fixpoint rendered_exprs (n : node) : list jsval :=
  match n with
  | Elem _ _ children => flat_map rendered_exprs children
  | Expr v => [v]
  | _ => []
  end.

Definition props_of (n : node) : list (string * node) :=
  match n with
  | Elem _ props _ => props
  | _ => []
  end.

Definition children_of (n : node) : list node :=
  match n with
  | Elem _ _ children => children
  | _ => []
  end.

Fixpoint prop (k : string) (props : list (string * node)) : option node :=
  match props with
  | [] => None
  | (k', v) :: rest => if k' =? k then Some v else prop k rest
  end.

(** ** Effects: requests, component state, exceptions *)

(** A settled [fetch] gives a response; [body] is what its [.json()] settles
    to: the parsed value, or a rejection when the body is not JSON. *)
Record response : Type := { body : result jsval }.

(** The network: what [fetch] of a URL settles to. *)
Definition network : Type := string -> result response.

(** The program state: the two [useState] cells of [Character], the effects
    its [useEffect] registered (by the value of their dependency [id]), and
    the trace of what crossed the program's boundary: every [fetch], oldest
    first, as the URL requested with what the network answered, and the
    promise rejections no handler received. *)
Record pstate : Type := {
  character : jsval;
  randomFact : jsval;
  effects : list jsval;
  requests : list (string * result response);
  rejections : list jserror
}.

(** [useState(null)] and [useState('')], nothing requested yet. *)
Definition initial : pstate :=
  {| character := JNull; randomFact := JStr ""; effects := [];
     requests := []; rejections := [] |}.

Definition M (A : Type) : Type := pstate -> result A * pstate.

Definition ret {A} (a : A) : M A := fun st => (Ok a, st).

Definition throw {A} (e : jserror) : M A := fun st => (Throw e, st).

Definition bind {A B} (m : M A) (k : A -> M B) : M B :=
  fun st =>
    match m st with
    | (Ok a, st') => k a st'
    | (Throw e, st') => (Throw e, st')
    end.

Definition lift {A} (r : result A) : M A := fun st => (r, st).

Declare Scope js_scope.
Delimit Scope js_scope with js.
Notation "x <- m ;; k" := (bind m (fun x => k))
  (at level 61, m at next level, right associativity) : js_scope.
Notation "m ;;; k" := (bind m (fun _ => k))
  (at level 61, right associativity) : js_scope.
Local Open Scope js_scope.

(** The same sequencing for code with no effect but exceptions. *)
Definition rbind {A B} (r : result A) (k : A -> result B) : result B :=
  match r with
  | Ok a => k a
  | Throw e => Throw e
  end.
Notation "x <~ r ;; k" := (rbind r (fun x => k))
  (at level 61, r at next level, right associativity) : js_scope.

Fixpoint rmap {A B} (f : A -> result B) (l : list A) : result (list B) :=
  match l with
  | [] => Ok []
  | x :: rest => y <~ f x ;; ys <~ rmap f rest ;; Ok (y :: ys)
  end.

(** [fetch(url)]: the request leaves the program, the network answers. *)
Definition fetch (net : network) (url : string) : M response :=
  fun st =>
    (net url,
     {| character := character st; randomFact := randomFact st;
        effects := effects st;
        requests := (requests st ++ [(url, net url)])%list;
        rejections := rejections st |}).

(** [res.json()]. *)
Definition json (res : response) : M jsval := lift (body res).

Definition setCharacter (v : jsval) : M unit :=
  fun st =>
    (Ok tt,
     {| character := v; randomFact := randomFact st; effects := effects st;
        requests := requests st; rejections := rejections st |}).

Definition setRandomFact (v : jsval) : M unit :=
  fun st =>
    (Ok tt,
     {| character := character st; randomFact := v; effects := effects st;
        requests := requests st; rejections := rejections st |}).

(** [useEffect(callback, [id])]: the callback is registered for after the
    render, under its dependency. *)
Definition useEffect (id : jsval) : M unit :=
  fun st =>
    (Ok tt,
     {| character := character st; randomFact := randomFact st;
        effects := (effects st ++ [id])%list;
        requests := requests st; rejections := rejections st |}).

(** A call of an async function whose promise is dropped ([f();] with no
    [await], [.then] or [.catch]): the caller goes on, and a rejection is
    received by no handler. *)
Definition spawn (m : M unit) : M unit :=
  fun st =>
    match m st with
    | (Ok _, st') => (Ok tt, st')
    | (Throw e, st') =>
        (Ok tt,
         {| character := character st'; randomFact := randomFact st';
            effects := effects st'; requests := requests st';
            rejections := (rejections st' ++ [e])%list |})
    end.

(** A call [x()] looks [x] up in the scope of its module (the imports and
    the declarations; the hooks this program calls are no globals): an
    unbound name throws a ReferenceError at the call. *)
Definition resolve (scope : list string) (x : string) : M unit :=
  if existsb (String.eqb x) scope then ret tt
  else throw (ReferenceError (x ++ " is not defined")).

(** ** The static pages, the navigation bar and the layout (readme, steps 2-3) *)

(** [function About()]: called with whatever arguments, it reads none. *)
Definition About (_ : list jsval) : node :=
  Elem (Host "div") []
    [ Elem (Host "h1") [] [Text "About"];
      Elem (Host "p") []
        [Text "This is the Star Wars app built with Next.js, leveraging SWAPI."] ].

Definition Contact (_ : list jsval) : node :=
  Elem (Host "div") []
    [ Elem (Host "h1") [] [Text "Contact"];
      Elem (Host "p") [] [Text "You can reach us at contact@swapiapp.com."] ].

Definition Navbar (_ : list jsval) : node :=
  Elem (Host "nav") []
    [ Elem (Host "ul") []
        [ Elem (Host "li") [] [Elem (Component "Link") [("href", Text "/")] [Text "Home"]];
          Elem (Host "li") [] [Elem (Component "Link") [("href", Text "/about")] [Text "About"]];
          Elem (Host "li") [] [Elem (Component "Link") [("href", Text "/contact")] [Text "Contact"]] ] ].

(** [function Layout(props)], on the children it is given. *)
Definition Layout (children : list node) : node :=
  Elem (Host "div") []
    [ Elem (Component "Navbar") [] [];
      Elem (Host "main") [] children ].

(** ** The list page (readme, step 4) *)

Definition people_url : string := "https://swapi.dev/api/people/".

(** [async function fetchPeople()]. *)
Definition fetchPeople (net : network) : M jsval :=
  response <- fetch net people_url ;;
  data <- json response ;;
  lift (get_prop data "results").

(** The arrow function given to [people.map]: one [<li>] per person, its
    [<Link>] going to [`/character/${person.url.split('/')[5]}`] and showing
    [person.name].  The hole of the template literal holds a piece of the
    split or [undefined], which always convert. *)
Definition person_entry (person : jsval) : result node :=
  key <~ get_prop person "url" ;;
  url <~ get_prop person "url" ;;
  pieces <~ call_split url "/" ;;
  id <~ index pieces 5 ;;
  name <~ get_prop person "name" ;;
  Ok (Elem (Host "li") [("key", Expr key)]
        [ Elem (Component "Link")
            [("href", Expr (JStr ("/character/" ++ ToString id)))]
            [Expr name] ]).

(** [people.map(f)]: only an array has the method. *)
Definition call_map (people : jsval) (f : jsval -> result node) : result (list node) :=
  match people with
  | JArr items => rmap f items
  | JUndefined => Throw (TypeError "Cannot read properties of undefined (reading 'map')")
  | JNull => Throw (TypeError "Cannot read properties of null (reading 'map')")
  | _ => Throw (TypeError "map is not a function")
  end.

(** [async function Home()]. *)
Definition Home (net : network) : M node :=
  people <- fetchPeople net ;;
  entries <- lift (call_map people person_entry) ;;
  ret (Elem (Component "Layout") []
         [ Elem (Host "div") []
             [ Elem (Host "h1") [] [Text "Star Wars Characters"];
               Elem (Host "ul") [] entries ] ]).

(** The navigable entries of a rendered list page, and what each one links to
    and shows. *)
Definition list_entries (page : node) : list node :=
  elements_by_tag (Host "li") page.

Definition entry_link (entry : node) : option node :=
  hd_error (elements_by_tag (Component "Link") entry).

Definition entry_href (entry : node) : option node :=
  match entry_link entry with
  | Some link => prop "href" (props_of link)
  | None => None
  end.

Definition entry_label (entry : node) : list node :=
  match entry_link entry with
  | Some link => children_of link
  | None => []
  end.

(** ** The detail page (readme, step 5) *)

(** The inner [const fetchCharacter = async () => ...] of the effect, for the
    [id] the effect closes over. *)
(** [`https://swapi.dev/api/people/${id}`], for the route parameter [id] (a
    string, or several for a catch-all route; [undefined] when absent). *)
Definition character_url (id : jsval) : string :=
  "https://swapi.dev/api/people/" ++ ToString id.

Definition fetchCharacter (net : network) (id : jsval) : M unit :=
  res <- fetch net (character_url id) ;;
  data <- json res ;;
  setCharacter data.

(** The callback given to [useEffect]: [if (id) { ...; fetchCharacter(); }]. *)
Definition Character_effect (net : network) (id : jsval) : M unit :=
  if truthy id then spawn (fetchCharacter net id) else ret tt.

(** [Math.floor(Math.random() * length)], for the number [r] that
    [Math.random()] returned.  A Number is a binary fraction, so a rational;
    with [length = 4] the product is a scaling by a power of two, which
    binary floating point computes exactly, so the rational product and its
    floor are the values the program computes. *)
Definition random_index (r : Q) (len : Z) : Z :=
  Qfloor (r * inject_Z len).

(** The array literal [facts] of [fetchRandomFact]; each template literal
    reads and converts its holes left to right. *)
Definition facts_of (character : jsval) : result (list jsval) :=
  name1 <~ get_prop character "name" ;;
  name1 <~ template_hole name1 ;;
  films <~ get_prop character "films" ;;
  count <~ get_prop films "length" ;;
  count <~ template_hole count ;;
  name2 <~ get_prop character "name" ;;
  name2 <~ template_hole name2 ;;
  height <~ get_prop character "height" ;;
  height <~ template_hole height ;;
  name3 <~ get_prop character "name" ;;
  name3 <~ template_hole name3 ;;
  eye_color <~ get_prop character "eye_color" ;;
  eye_color <~ template_hole eye_color ;;
  name4 <~ get_prop character "name" ;;
  name4 <~ template_hole name4 ;;
  birth_year <~ get_prop character "birth_year" ;;
  birth_year <~ template_hole birth_year ;;
  Ok [ JStr (name1 ++ " appeared in " ++ count ++ " films.");
       JStr (name2 ++ " is " ++ height ++ "cm tall.");
       JStr (name3 ++ " has " ++ eye_color ++ " eyes.");
       JStr (name4 ++ "'s birth year is " ++ birth_year ++ ".") ].

(** [const fetchRandomFact = () => ...], for the number [r] that its call of
    [Math.random()] returns. *)
Definition fetchRandomFact (r : Q) : M unit :=
  fun st =>
    (facts <- lift (facts_of (character st)) ;;
     let i := random_index r (Z.of_nat (List.length facts)) in
     fact <- lift (index (JArr facts) i) ;;
     setRandomFact fact) st.

(** The JSX that [Character] returns, for the current state cells. *)
Definition Character_return (character randomFact : jsval) : result node :=
  name <~ get_prop character "name" ;;
  mass <~ get_prop character "mass" ;;
  hair_color <~ get_prop character "hair_color" ;;
  skin_color <~ get_prop character "skin_color" ;;
  gender <~ get_prop character "gender" ;;
  Ok (Elem (Component "Layout") []
        [ Elem (Host "div") []
            [ Elem (Host "h1") [] [Expr name];
              Elem (Host "p") [] [Text "Mass: "; Expr mass];
              Elem (Host "p") [] [Text "Hair Color: "; Expr hair_color];
              Elem (Host "p") [] [Text "Skin Color: "; Expr skin_color];
              Elem (Host "p") [] [Text "Gender: "; Expr gender];
              Elem (Host "button") [("onClick", Fn "fetchRandomFact")]
                [Text "Show Random Fact"];
              Elem (Host "p") [] [Expr randomFact] ] ]).

(** The names the module of the detail page binds: its three imports
    ([useParams]; [useState] and [useEffect]; [Layout]) and its own
    declaration. *)
Definition Character_scope : list string :=
  ["useParams"; "useState"; "useEffect"; "Layout"; "Character"].

(** [function Character()], one call of it.  [router] is what a bound
    [useRouter] would return for the current route. *)
Definition Character (router : jsval) : M node :=
  resolve Character_scope "useRouter" ;;;
  query <- lift (get_prop router "query") ;;
  id <- lift (get_prop query "id") ;;
  resolve Character_scope "useState" ;;;
  resolve Character_scope "useState" ;;;
  resolve Character_scope "useEffect" ;;;
  useEffect id ;;;
  fun st => lift (Character_return (character st) (randomFact st)) st.

(** The effects the render registered run once it has returned; a render
    that throws commits nothing, and its effects never run. *)
Fixpoint run_effects (net : network) (ids : list jsval) : M unit :=
  match ids with
  | [] => ret tt
  | id :: rest => Character_effect net id ;;; run_effects net rest
  end.

Definition mount (net : network) (router : jsval) : M node :=
  page <- Character router ;;
  (fun st => run_effects net (effects st) st) ;;;
  ret page.

(** What can happen to a detail page, one request at a time: its effect
    callback runs for a route parameter [id] against the network of the
    moment and the request it sends settles before anything else happens, or
    the button is clicked and [Math.random()] returns [r].  Runs with
    requests in flight are the [moment]s below. *)
Inductive event : Type :=
| Effect (net : network) (id : jsval)
| Click (r : Q).

Definition handle (ev : event) : M unit :=
  match ev with
  | Effect net id => Character_effect net id
  | Click r => fetchRandomFact r
  end.

(** The state an event leaves; an exception out of a handler is reported
    and changes nothing more. *)
Definition after (ev : event) (st : pstate) : pstate := snd (handle ev st).

Definition run (evs : list event) (st : pstate) : pstate :=
  fold_left (fun st ev => after ev st) evs st.

(** The value a logged request fetched, when the request and the parse of
    its body both succeeded. *)
Definition fetched_value (entry : string * result response) : option jsval :=
  match snd entry with
  | Ok res =>
      match body res with
      | Ok data => Some data
      | Throw _ => None
      end
  | Throw _ => None
  end.

(** The response of the most recent successful fetch of a request log, and
    [null], the initial value of the state cell, when there is none. *)
Definition last_fetched (log : list (string * result response)) : jsval :=
  fold_left
    (fun acc entry => match fetched_value entry with Some data => data | None => acc end)
    log JNull.

(** A fetch or the parse of its body fails with [e]. *)
Definition fails_with (net : network) (url : string) (e : jserror) : Prop :=
  net url = Throw e \/ exists res, net url = Ok res /\ body res = Throw e.

(** Property read where it cannot throw. *)
Definition field (v : jsval) (k : string) : jsval :=
  match get_prop v k with
  | Ok x => x
  | Throw _ => JUndefined
  end.

(** A field is defined: reading it gives a value that is neither
    [undefined] nor [null]. *)
Definition defined (v : jsval) (k : string) : Prop :=
  exists x, get_prop v k = Ok x /\ nullish x = false.

(** An item of the people list: its [url] is a string. *)
Definition has_url (person : jsval) : Prop :=
  exists u, get_prop person "url" = Ok (JStr u).

Fixpoint strip_prefix (p s : string) : option string :=
  match p, s with
  | EmptyString, _ => Some s
  | String a p', String b s' => if Ascii.eqb a b then strip_prefix p' s' else None
  | String _ _, EmptyString => None
  end.

(** The id segment of an entry's link target [/character/<id>]. *)
Definition entry_id (entry : node) : option string :=
  match entry_href entry with
  | Some (Expr (JStr href)) => strip_prefix "/character/" href
  | _ => None
  end.

Fixpoint contains (c : ascii) (s : string) : bool :=
  match s with
  | EmptyString => false
  | String c' rest => Ascii.eqb c' c || contains c rest
  end.

(** The trailing path segment of a URL, in the words of the specification:
    the last piece between slashes that is not empty (a URL of the API ends
    in a slash). *)
Definition trailing_segment (url : string) : option string :=
  hd_error (rev (filter (fun piece => negb (piece =? "")) (split "/" url))).

(** ** The recipe router (App.js) *)

Module RecipeApp.

(** [function App()]. *)
Definition App (_ : list jsval) : node :=
  Elem (Component "BrowserRouter") []
    [ Elem (Component "Routes") []
        [ Elem (Component "Route")
            [("path", Text "/"); ("element", Elem (Component "RecipeList") [] [])] [];
          Elem (Component "Route")
            [("path", Text "/recipe/:id"); ("element", Elem (Component "RecipeDetail") [] [])] [] ] ].

(** The routes of a router tree: for each [<Route>], in order, its [path]
    and its [element]. *)
Definition routes (page : node) : list (option node * option node) :=
  map (fun route => (prop "path" (props_of route), prop "element" (props_of route)))
      (elements_by_tag (Component "Route") page).

End RecipeApp.

(** ** Requests in flight *)

(** A call of [fetchCharacter] suspended at one of its two awaits: at
    [await fetch(...)], the request sent, with what the network will answer,
    or at [await res.json()], the response received. *)
Inductive task : Type :=
| AwaitFetch (url : string) (reply : result response)
| AwaitJson (url : string) (res : response).

(** [fetchCharacter] up to its first await: [fetch] is called. *)
Definition fetchCharacter_start (net : network) (id : jsval) (st : pstate)
  : task * pstate :=
  (AwaitFetch (character_url id) (fst (fetch net (character_url id) st)),
   snd (fetch net (character_url id) st)).

(** [fetchCharacter] from an await that has settled to the next one, or to
    its end ([None]); a rejected await rejects the call. *)
Definition fetchCharacter_resume (t : task) : M (option task) :=
  match t with
  | AwaitFetch url reply =>
      res <- lift reply ;;
      ret (Some (AwaitJson url res))
  | AwaitJson url res =>
      data <- json res ;;
      setCharacter data ;;;
      ret None
  end.

(** The request a suspended call made, as the log has it. *)
Definition request_of (t : task) : string * result response :=
  match t with
  | AwaitFetch url reply => (url, reply)
  | AwaitJson url res => (url, Ok res)
  end.

Fixpoint remove_nth {A : Type} (k : nat) (l : list A) : list A :=
  match l, k with
  | [], _ => []
  | _ :: rest, O => rest
  | x :: rest, S k' => x :: remove_nth k' rest
  end.

(** A detail page with its calls in flight, and the requests that have
    settled (their call has ended, in a [setCharacter] or in a rejection),
    in the order in which they settled. *)
Record page : Type := {
  cells : pstate;
  in_flight : list task;
  settled : list (string * result response)
}.

Definition opened : page :=
  {| cells := initial; in_flight := []; settled := [] |}.

(** What can happen to a detail page: its effect callback runs for a route
    parameter [id] ([if (id)] then [fetchCharacter()], which goes as far as
    its first await); what the [k]-th call in flight awaits settles, and the
    call goes on to its next await or to its end, in any order among the
    calls, nothing being cancelled; the button is clicked. *)
Inductive moment : Type :=
| Started (net : network) (id : jsval)
| Resumed (k : nat)
| Clicked (r : Q).

Definition step (m : moment) (p : page) : page :=
  match m with
  | Started net id =>
      if truthy id then
        {| cells := snd (fetchCharacter_start net id (cells p));
           in_flight := (in_flight p ++ [fst (fetchCharacter_start net id (cells p))])%list;
           settled := settled p |}
      else p
  | Resumed k =>
      match nth_error (in_flight p) k with
      | None => p
      | Some t =>
          match fetchCharacter_resume t (cells p) with
          | (Ok (Some next), st') =>
              {| cells := st';
                 in_flight := (remove_nth k (in_flight p) ++ [next])%list;
                 settled := settled p |}
          | (Ok None, st') =>
              {| cells := st';
                 in_flight := remove_nth k (in_flight p);
                 settled := (settled p ++ [request_of t])%list |}
          | (Throw e, st') =>
              {| cells :=
                   {| character := character st'; randomFact := randomFact st';
                      effects := effects st'; requests := requests st';
                      rejections := (rejections st' ++ [e])%list |};
                 in_flight := remove_nth k (in_flight p);
                 settled := (settled p ++ [request_of t])%list |}
          end
      end
  | Clicked r =>
      {| cells := snd (fetchRandomFact r (cells p));
         in_flight := in_flight p;
         settled := settled p |}
  end.

Definition play (ms : list moment) (p : page) : page :=
  fold_left (fun p m => step m p) ms p.

(** A run one request at a time, as moments: each request settles at once. *)
Fixpoint schedule (evs : list event) : list moment :=
  match evs with
  | [] => []
  | Effect net id :: rest => Started net id :: Resumed 0 :: Resumed 0 :: schedule rest
  | Click r :: rest => Clicked r :: schedule rest
  end.

(** ** Observations on a run of the detail page *)

(** The route parameters for which the effect of a run sent a request: the
    [id] of each [Effect] event that passes the test [if (id)], in order. *)
Fixpoint effect_ids (evs : list event) : list jsval :=
  match evs with
  | [] => []
  | Effect _ id :: rest => if truthy id then id :: effect_ids rest else effect_ids rest
  | Click _ :: rest => effect_ids rest
  end.

(** The error of a logged request that failed, in its fetch or in the parse
    of its body. *)
Definition failure_of (entry : string * result response) : option jserror :=
  match snd entry with
  | Ok res =>
      match body res with
      | Ok _ => None
      | Throw e => Some e
      end
  | Throw e => Some e
  end.

Fixpoint failures (log : list (string * result response)) : list jserror :=
  match log with
  | [] => []
  | entry :: rest =>
      match failure_of entry with
      | Some e => e :: failures rest
      | None => failures rest
      end
  end.

(** How many times a character occurs in a string. *)
Fixpoint occurrences (c : ascii) (s : string) : nat :=
  match s with
  | EmptyString => 0
  | String c' rest => (if Ascii.eqb c' c then 1 else 0) + occurrences c rest
  end.

(** An event the browser can deliver: [Math.random()] is in [[0, 1)]. *)
Definition valid_event (ev : event) : Prop :=
  match ev with
  | Effect _ _ => True
  | Click r => (0 <= r)%Q /\ (r < 1)%Q
  end.

(** * Properties *)

(** ** The model on concrete inputs *)

Definition luke : jsval :=
  JObj [ ("name", JStr "Luke Skywalker"); ("height", JStr "172");
         ("mass", JStr "77"); ("hair_color", JStr "blond");
         ("skin_color", JStr "fair"); ("eye_color", JStr "blue");
         ("birth_year", JStr "19BBY"); ("gender", JStr "male");
         ("films", JArr [JStr "https://swapi.dev/api/films/1/";
                         JStr "https://swapi.dev/api/films/2/";
                         JStr "https://swapi.dev/api/films/3/";
                         JStr "https://swapi.dev/api/films/6/"]);
         ("url", JStr "https://swapi.dev/api/people/1/") ].

(** A body whose fields are all defined, with a [height] that does not
    convert to text, and the state of a page that has loaded it. *)
Definition tall_order : jsval :=
  JObj [ ("name", JStr "X"); ("films", JArr []);
         ("height", JObj [("toString", JNum "1")]);
         ("eye_color", JStr "blue"); ("birth_year", JStr "19BBY") ].

Definition tall_order_state : pstate :=
  {| character := tall_order; randomFact := JStr ""; effects := [];
     requests := []; rejections := [] |}.

(** A body whose fields are of several kinds, and a page that has loaded
    it. *)
Definition mixed : jsval :=
  JObj [ ("name", JStr "R2"); ("films", JArr [JStr "https://swapi.dev/api/films/1/"]);
         ("height", JNum "1e+21"); ("eye_color", JBool true);
         ("birth_year", JArr [JStr "33"; JNull; JObj []]) ].

Definition mixed_state : pstate :=
  {| character := mixed; randomFact := JStr ""; effects := [];
     requests := []; rejections := [] |}.

Definition leia : jsval :=
  JObj [ ("name", JStr "Leia Organa"); ("url", JStr "https://swapi.dev/api/people/5/") ].

(** A person served under a versioned API root, one directory deeper. *)
Definition luke_v1 : jsval :=
  JObj [ ("name", JStr "Luke Skywalker");
         ("url", JStr "https://swapi.dev/api/v1/people/1/") ].

(** A person whose url has no path, and an item with no url at all. *)
Definition short_url_person : jsval :=
  JObj [ ("name", JStr "Yoda"); ("url", JStr "https://swapi.dev/") ].

Definition nameless_item : jsval := JObj [ ("name", JStr "Nobody") ].

(** The body of a 404 answer of the API. *)
Definition not_found : jsval := JObj [ ("detail", JStr "Not found") ].

Definition not_found_net : network :=
  fun _ => Ok {| body := Ok not_found |}.

(** A network that serves a list with an item that has no url. *)
Definition bad_item_net : network :=
  fun _ => Ok {| body := Ok (JObj [("results", JArr [luke; nameless_item; leia])]) |}.

(** A network that serves the two mock people one by one. *)
Definition people_net : network :=
  fun url =>
    if url =? "https://swapi.dev/api/people/1" then Ok {| body := Ok luke |}
    else if url =? "https://swapi.dev/api/people/5" then Ok {| body := Ok leia |}
    else Throw (NetworkError "fetch failed").

(** A network that serves the two mock people and fails anything else. *)
Definition mock_net : network :=
  fun url =>
    if url =? people_url
    then Ok {| body := Ok (JObj [("count", JNum "2"); ("results", JArr [luke; leia])]) |}
    else if url =? "https://swapi.dev/api/people/1"
    then Ok {| body := Ok luke |}
    else Throw (NetworkError "fetch failed").

(** A network that is down. *)
Definition offline : network := fun _ => Throw (NetworkError "fetch failed").

(** A network whose answers are not JSON. *)
Definition garbled : network :=
  fun _ => Ok {| body := Throw (SyntaxError "Unexpected token < in JSON") |}.

(** Two visits whose requests overlap: the page asks for person 1, then for
    person 5; the answer for 5 arrives and is parsed first, the answer for 1
    after it. *)
Definition overlapping : list moment :=
  [ Started people_net (JStr "1"); Started people_net (JStr "5");
    Resumed 1; Resumed 1; Resumed 0; Resumed 0 ].

(** Two requests that both fail, the second one first. *)
Definition failing_overlap : list moment :=
  [ Started offline (JStr "1"); Started garbled (JStr "2");
    Resumed 1; Resumed 1; Resumed 0 ].

Example split_swapi :
  split "/" "https://swapi.dev/api/people/1/"
  = ["https:"; ""; "swapi.dev"; "api"; "people"; "1"; ""].
Proof. reflexivity. Qed.

Example ToString_examples :
  ToString (number_of_nat 4) = "4" /\ ToString (number_of_nat 0) = "0"
  /\ ToString (JNum "1e+21") = "1e+21"
  /\ ToString (JArr [JNum "1"; JNull; JStr "a"]) = "1,,a" /\ ToString (JArr []) = "".
Proof. repeat split; reflexivity. Qed.

Example Home_mock :
  fst (Home mock_net initial)
  = Ok (Elem (Component "Layout") []
          [ Elem (Host "div") []
              [ Elem (Host "h1") [] [Text "Star Wars Characters"];
                Elem (Host "ul") []
                  [ Elem (Host "li") [("key", Expr (JStr "https://swapi.dev/api/people/1/"))]
                      [ Elem (Component "Link") [("href", Expr (JStr "/character/1"))]
                          [Expr (JStr "Luke Skywalker")] ];
                    Elem (Host "li") [("key", Expr (JStr "https://swapi.dev/api/people/5/"))]
                      [ Elem (Component "Link") [("href", Expr (JStr "/character/5"))]
                          [Expr (JStr "Leia Organa")] ] ] ] ]).
Proof. reflexivity. Qed.

Example facts_of_luke :
  facts_of luke
  = Ok [ JStr "Luke Skywalker appeared in 4 films.";
         JStr "Luke Skywalker is 172cm tall.";
         JStr "Luke Skywalker has blue eyes.";
         JStr "Luke Skywalker's birth year is 19BBY." ].
Proof. reflexivity. Qed.

Example click_after_fetch :
  let st := run [Effect mock_net (JStr "1"); Click (5 # 8)] initial in
  character st = luke
  /\ randomFact st = JStr "Luke Skywalker has blue eyes."
  /\ map fst (requests st) = ["https://swapi.dev/api/people/1"].
Proof. vm_compute. repeat split; reflexivity. Qed.

(** ** The static pages and the router *)

(** C8: whatever the arguments of the call, and so whatever the state of the
    program around it, [About] returns one fixed tree (a heading and a
    paragraph) and so does [Contact]; any two calls give the same tree. *)
Theorem static_pages_fixed :
  forall args args' : list jsval,
    About args
    = Elem (Host "div") []
        [ Elem (Host "h1") [] [Text "About"];
          Elem (Host "p") []
            [Text "This is the Star Wars app built with Next.js, leveraging SWAPI."] ]
    /\ Contact args
       = Elem (Host "div") []
           [ Elem (Host "h1") [] [Text "Contact"];
             Elem (Host "p") [] [Text "You can reach us at contact@swapiapp.com."] ]
    /\ About args = About args'
    /\ Contact args = Contact args'
    /\ rendered_exprs (About args) = []
    /\ rendered_exprs (Contact args) = [].
Proof.
  intros args args'. repeat split.
Qed.

(** C10: the router of [App] has exactly two routes, in this order: ["/"]
    with [<RecipeList />] and ["/recipe/:id"] with [<RecipeDetail />]; no
    route has the path of an About or a Contact page. *)
Theorem App_routes :
  forall args : list jsval,
    RecipeApp.routes (RecipeApp.App args)
    = [ (Some (Text "/"), Some (Elem (Component "RecipeList") [] []));
        (Some (Text "/recipe/:id"), Some (Elem (Component "RecipeDetail") [] [])) ]
    /\ List.length (RecipeApp.routes (RecipeApp.App args)) = 2%nat
    /\ ~ In (Some (Text "/about")) (map fst (RecipeApp.routes (RecipeApp.App args)))
    /\ ~ In (Some (Text "/contact")) (map fst (RecipeApp.routes (RecipeApp.App args)))
    /\ elements_by_tag (Component "About") (RecipeApp.App args) = []
    /\ elements_by_tag (Component "Contact") (RecipeApp.App args) = [].
Proof.
  intros args. repeat split; try reflexivity.
  - cbn. intros [H | [H | []]]; discriminate H.
  - cbn. intros [H | [H | []]]; discriminate H.
Qed.

(** ** Reading properties *)

Lemma get_prop_ok_nonnullish :
  forall v k x, get_prop v k = Ok x -> nullish v = false.
Proof.
  intros v k x H. destruct v; simpl in *; try reflexivity; discriminate H.
Qed.

Lemma get_prop_total :
  forall v k, nullish v = false -> get_prop v k = Ok (field v k).
Proof.
  intros v k H. unfold field.
  destruct v; simpl in *; try discriminate H; reflexivity.
Qed.

Lemma get_prop_throws :
  forall v k, nullish v = true -> exists e, get_prop v k = Throw (TypeError e).
Proof.
  intros v k H. destruct v; simpl in *; try discriminate H; eexists; reflexivity.
Qed.

Lemma get_prop_field :
  forall v k x, get_prop v k = Ok x -> field v k = x.
Proof.
  intros v k x H. unfold field. rewrite H. reflexivity.
Qed.

Lemma get_prop_throws_TypeError :
  forall v k e, get_prop v k = Throw e -> exists what, e = TypeError what.
Proof.
  intros v k e H. destruct v; simpl in H; try discriminate H;
    injection H as <-; eexists; reflexivity.
Qed.

(** ** The random-fact selector *)

Lemma template_hole_printable :
  forall v, printable v = true -> template_hole v = Ok (ToString v).
Proof. intros v H. unfold template_hole. rewrite H. reflexivity. Qed.

Lemma template_hole_throws :
  forall v, printable v = false -> exists what, template_hole v = Throw (TypeError what).
Proof. intros v H. unfold template_hole. rewrite H. eexists. reflexivity. Qed.

(** The four facts exist as soon as the character and its [films] can be
    read and the five values in the holes convert, and they are the four
    sentences of the source. *)
Lemma facts_of_ok :
  forall c,
    nullish c = false -> nullish (field c "films") = false ->
    printable (field c "name") = true ->
    printable (field (field c "films") "length") = true ->
    printable (field c "height") = true ->
    printable (field c "eye_color") = true ->
    printable (field c "birth_year") = true ->
    facts_of c
    = Ok [ JStr (ToString (field c "name") ++ " appeared in "
                 ++ ToString (field (field c "films") "length") ++ " films.");
           JStr (ToString (field c "name") ++ " is "
                 ++ ToString (field c "height") ++ "cm tall.");
           JStr (ToString (field c "name") ++ " has "
                 ++ ToString (field c "eye_color") ++ " eyes.");
           JStr (ToString (field c "name") ++ "'s birth year is "
                 ++ ToString (field c "birth_year") ++ ".") ].
Proof.
  intros c Hc Hf Hname Hcount Hheight Heye Hbirth. unfold facts_of.
  repeat (first [ rewrite (get_prop_total c) by assumption
                | rewrite (get_prop_total (field c "films")) by assumption
                | rewrite template_hole_printable by assumption ];
          cbn [rbind]).
  reflexivity.
Qed.

(** Conversely the facts are built only then, and what is thrown otherwise
    is a TypeError. *)
Lemma facts_of_ok_inv :
  forall c facts,
    facts_of c = Ok facts ->
    nullish c = false /\ nullish (field c "films") = false
    /\ printable (field c "name") = true
    /\ printable (field (field c "films") "length") = true
    /\ printable (field c "height") = true
    /\ printable (field c "eye_color") = true
    /\ printable (field c "birth_year") = true.
Proof.
  intros c facts H. unfold facts_of in H.
  destruct (nullish c) eqn:Hc.
  { destruct (get_prop_throws c "name" Hc) as [what Hthrow].
    rewrite Hthrow in H. discriminate H. }
  unfold template_hole in H.
  rewrite !(get_prop_total c) in H by exact Hc. cbn [rbind] in H.
  destruct (printable (field c "name")) eqn:Hname; cbn [rbind] in H;
    [ | discriminate H].
  destruct (nullish (field c "films")) eqn:Hf.
  { destruct (get_prop_throws (field c "films") "length" Hf) as [what Hthrow].
    rewrite Hthrow in H. discriminate H. }
  rewrite (get_prop_total (field c "films")) in H by exact Hf. cbn [rbind] in H.
  destruct (printable (field (field c "films") "length")); cbn [rbind] in H;
    [ | discriminate H].
  rewrite ?Hname in H. cbn [rbind] in H.
  destruct (printable (field c "height")); cbn [rbind] in H; [ | discriminate H].
  rewrite ?Hname in H. cbn [rbind] in H.
  destruct (printable (field c "eye_color")); cbn [rbind] in H; [ | discriminate H].
  rewrite ?Hname in H. cbn [rbind] in H.
  destruct (printable (field c "birth_year")); cbn [rbind] in H; [ | discriminate H].
  repeat split.
Qed.

Lemma facts_of_throws_TypeError :
  forall c e, facts_of c = Throw e -> exists what, e = TypeError what.
Proof.
  intros c e H. unfold facts_of in H.
  repeat match type of H with
         | rbind ?r _ = _ =>
             let Hr := fresh "Hr" in
             destruct r eqn:Hr; cbn [rbind] in H;
             [ clear Hr
             | injection H as <-;
               first [ eapply get_prop_throws_TypeError; exact Hr
                     | unfold template_hole in Hr;
                       match type of Hr with
                       | (if ?b then _ else _) = _ => destruct b
                       end;
                       [discriminate Hr | injection Hr as <-; eexists; reflexivity] ] ]
         end.
  discriminate H.
Qed.

(** Whenever the facts can be built there are four of them, all strings. *)
Lemma facts_of_shape :
  forall c facts,
    facts_of c = Ok facts ->
    exists s0 s1 s2 s3, facts = [JStr s0; JStr s1; JStr s2; JStr s3].
Proof.
  intros c facts H. unfold facts_of in H.
  repeat match type of H with
         | rbind ?r _ = _ => destruct r; cbn [rbind] in H; [ | discriminate H ]
         end.
  injection H as <-. do 4 eexists. reflexivity.
Qed.

Lemma fetchRandomFact_throw :
  forall r st e,
    facts_of (character st) = Throw e -> fetchRandomFact r st = (Throw e, st).
Proof.
  intros r st e H. unfold fetchRandomFact, bind, lift. rewrite H. reflexivity.
Qed.

Lemma fetchRandomFact_ok :
  forall r st facts,
    facts_of (character st) = Ok facts ->
    fetchRandomFact r st
    = (Ok tt,
       {| character := character st;
          randomFact :=
            (let i := random_index r (Z.of_nat (List.length facts)) in
             if (i <? 0)%Z then JUndefined else nth (Z.to_nat i) facts JUndefined);
          effects := effects st; requests := requests st;
          rejections := rejections st |}).
Proof.
  intros r st facts H. unfold fetchRandomFact, bind, lift. rewrite H.
  reflexivity.
Qed.

Lemma fetchRandomFact_keeps :
  forall (r : Q) (st : pstate),
    character (snd (fetchRandomFact r st)) = character st
    /\ effects (snd (fetchRandomFact r st)) = effects st
    /\ requests (snd (fetchRandomFact r st)) = requests st
    /\ rejections (snd (fetchRandomFact r st)) = rejections st.
Proof.
  intros r st.
  destruct (facts_of (character st)) as [facts | e] eqn:Hfacts.
  - rewrite (fetchRandomFact_ok r st facts Hfacts). repeat split.
  - rewrite (fetchRandomFact_throw r st e Hfacts). repeat split.
Qed.

(** C7: an activation of [fetchRandomFact] changes at most the [randomFact]
    cell: the [character] cell, the registered effects, the log of network
    requests (so it sends none) and the unhandled rejections are as before,
    whether it returns or throws; the state after differs from the state
    before in [randomFact] alone. *)
Theorem fetchRandomFact_frame :
  forall (r : Q) (st : pstate),
    character (snd (fetchRandomFact r st)) = character st
    /\ effects (snd (fetchRandomFact r st)) = effects st
    /\ requests (snd (fetchRandomFact r st)) = requests st
    /\ rejections (snd (fetchRandomFact r st)) = rejections st
    /\ snd (fetchRandomFact r st)
       = {| character := character st;
            randomFact := randomFact (snd (fetchRandomFact r st));
            effects := effects st; requests := requests st;
            rejections := rejections st |}.
Proof.
  intros r st.
  destruct (fetchRandomFact_keeps r st) as (Hc & He & Hq & Hj).
  repeat split; try assumption.
  destruct (snd (fetchRandomFact r st)); cbn in *; congruence.
Qed.

(** ** The detail page *)

(** The effect callback, for a truthy [id]: exactly one request leaves, to
    the endpoint of that [id]; when it is answered and parsed, its value
    becomes the [character] cell. *)
Lemma Character_effect_requests :
  forall net id st,
    truthy id = true ->
    requests (snd (Character_effect net id st))
    = (requests st ++ [(character_url id, net (character_url id))])%list.
Proof.
  intros net id st Hid. unfold Character_effect. rewrite Hid.
  unfold spawn, fetchCharacter, bind, fetch, json, lift, setCharacter.
  destruct (net (character_url id)) as [res | e]; simpl.
  - destruct (body res); reflexivity.
  - reflexivity.
Qed.

Lemma Character_effect_success :
  forall net id st res data,
    truthy id = true ->
    net (character_url id) = Ok res -> body res = Ok data ->
    character (snd (Character_effect net id st)) = data
    /\ rejections (snd (Character_effect net id st)) = rejections st.
Proof.
  intros net id st res data Hid Hnet Hbody. unfold Character_effect. rewrite Hid.
  unfold spawn, fetchCharacter, bind, fetch, json, lift, setCharacter.
  rewrite Hnet. simpl. rewrite Hbody. split; reflexivity.
Qed.

Lemma Character_effect_falsy :
  forall net id st, truthy id = false -> Character_effect net id st = (Ok tt, st).
Proof.
  intros net id st Hid. unfold Character_effect. rewrite Hid. reflexivity.
Qed.

(** Were [useRouter] bound, the first render would still throw: the state
    cell is [null] until a fetch has answered, and the returned JSX reads
    [character.name]. *)
Lemma Character_return_null :
  forall fact, exists what, Character_return JNull fact = Throw (TypeError what).
Proof. intros fact. eexists. reflexivity. Qed.

(** C4, on the code as written: the detail page never gets to its request.
    [Character] calls [useRouter], which its module does not bind (the import
    is [useParams]), so every call throws a ReferenceError at its first
    statement, for every route; no effect is registered, nothing is fetched
    and no state cell is set. *)
Theorem Character_throws_before_fetching :
  forall (net : network) (router : jsval) (st : pstate),
    Character router st = (Throw (ReferenceError "useRouter is not defined"), st)
    /\ mount net router st = (Throw (ReferenceError "useRouter is not defined"), st)
    /\ requests (snd (mount net router st)) = requests st
    /\ effects (snd (mount net router st)) = effects st
    /\ character (snd (mount net router st)) = character st.
Proof.
  intros net router st. repeat split.
Qed.

(** ** The random index *)

(** The index is [k] exactly on the quarter [[k/4, (k+1)/4)] of the unit
    interval. *)
Lemma random_index_interval :
  forall (r : Q) (k : Z),
    random_index r 4 = k <-> (k # 4 <= r)%Q /\ (r < (k + 1) # 4)%Q.
Proof.
  intros [n d] k. unfold random_index, Qfloor, Qle, Qlt. cbn.
  rewrite Pos.mul_1_r.
  split.
  - intros <-.
    pose proof (Z.mul_div_le (n * 4) (Z.pos d) (eq_refl : (0 < Z.pos d)%Z)).
    pose proof (Z.mul_succ_div_gt (n * 4) (Z.pos d) (eq_refl : (0 < Z.pos d)%Z)).
    lia.
  - intros [Hlo Hhi]. symmetry.
    apply Z.div_unique with (r := (n * 4 - k * Z.pos d)%Z).
    + left. lia.
    + ring.
Qed.

Lemma random_index_range :
  forall r : Q, (0 <= r)%Q -> (r < 1)%Q -> (0 <= random_index r 4 <= 3)%Z.
Proof.
  intros r Hlo Hhi.
  destruct (proj1 (random_index_interval r (random_index r 4)) eq_refl) as [H1 H2].
  generalize dependent (random_index r 4). intros i H1 H2.
  assert (Ha : (0 < (i + 1) # 4)%Q) by (eapply Qle_lt_trans; eassumption).
  assert (Hb : (i # 4 < 1)%Q) by (eapply Qle_lt_trans; eassumption).
  unfold Qlt in Ha, Hb. cbn in Ha, Hb. lia.
Qed.

Lemma nth_of_four :
  forall (a b c d : jsval) (i : Z),
    (0 <= i <= 3)%Z ->
    (if (i <? 0)%Z then JUndefined else nth (Z.to_nat i) [a; b; c; d] JUndefined)
    = (if (i =? 0)%Z then a else if (i =? 1)%Z then b else if (i =? 2)%Z then c else d).
Proof.
  intros a b c d i Hi.
  assert (Hcases : i = 0%Z \/ i = 1%Z \/ i = 2%Z \/ i = 3%Z) by lia.
  destruct Hcases as [-> | [-> | [-> | ->]]]; reflexivity.
Qed.

(** C9: for a value [r] of [Math.random()], so with [0 <= r < 1], the index
    [Math.floor(r * facts.length)] over the four facts is between 0 and 3;
    [facts[i]] is then one of the four strings, never [undefined], and that
    string is what the activation stores.  (When the facts cannot be built
    the activation throws before it indexes, and stores nothing.) *)
Theorem random_index_in_bounds :
  forall (r : Q) (st : pstate),
    (0 <= r)%Q -> (r < 1)%Q ->
    (0 <= random_index r 4 <= 3)%Z
    /\ (forall facts,
          facts_of (character st) = Ok facts ->
          List.length facts = 4%nat
          /\ (Z.to_nat (random_index r (Z.of_nat (List.length facts))) < List.length facts)%nat
          /\ exists s,
               index (JArr facts) (random_index r (Z.of_nat (List.length facts))) = Ok (JStr s)
               /\ fst (fetchRandomFact r st) = Ok tt
               /\ randomFact (snd (fetchRandomFact r st)) = JStr s)
    /\ (forall e,
          facts_of (character st) = Throw e ->
          fetchRandomFact r st = (Throw e, st)).
Proof.
  intros r st Hlo Hhi.
  pose proof (random_index_range r Hlo Hhi) as Hi.
  split; [exact Hi | split].
  - intros facts Hfacts.
    destruct (facts_of_shape _ _ Hfacts) as (s0 & s1 & s2 & s3 & ->).
    rewrite (fetchRandomFact_ok r st _ Hfacts).
    change (Z.of_nat (List.length [JStr s0; JStr s1; JStr s2; JStr s3])) with 4%Z.
    cbn [List.length fst snd randomFact index].
    split; [reflexivity | split; [lia | ]].
    rewrite nth_of_four by exact Hi.
    destruct (random_index r 4 =? 0)%Z; [eexists; repeat split | ].
    destruct (random_index r 4 =? 1)%Z; [eexists; repeat split | ].
    destruct (random_index r 4 =? 2)%Z; eexists; repeat split.
  - intros e He. apply fetchRandomFact_throw. exact He.
Qed.

Lemma random_index_in_bounds_witness :
  (0 <= random_index (5 # 8) 4 <= 3)%Z
  /\ randomFact (snd (fetchRandomFact (5 # 8) (after (Effect mock_net (JStr "1")) initial)))
     = JStr "Luke Skywalker has blue eyes.".
Proof.
  pose proof (random_index_in_bounds (5 # 8)
                (after (Effect mock_net (JStr "1")) initial)
                ltac:(unfold Qle; simpl; lia) ltac:(unfold Qlt; simpl; lia)) as [Hi [Hok _]].
  split; [exact Hi | ].
  destruct (Hok _ facts_of_luke) as (_ & _ & s & Hs & _ & Hfact).
  rewrite Hfact. vm_compute in Hs. injection Hs as <-. reflexivity.
Defined.

Lemma defined_nonnullish :
  forall v k, defined v k -> nullish v = false /\ nullish (field v k) = false.
Proof.
  intros v k (x & Hx & Hnn). split.
  - eapply get_prop_ok_nonnullish; eassumption.
  - rewrite (get_prop_field _ _ _ Hx). exact Hnn.
Qed.

(** C2, as the code has it: for a loaded character [c] whose [name],
    [films], [height], [eye_color] and [birth_year] are defined and whose
    five printed values (the name, [films.length], the height, the eye color
    and the birth year) convert to text, an activation of the selector in
    which [Math.random()] returns [r] (so [0 <= r < 1]) builds exactly the
    four sentences of the source from the fields of [c], returns normally,
    and stores as [randomFact] the sentence at index [floor(4 r)], one of
    the four.  The choice is uniform in [r]: index [k] is taken exactly when
    [r] is in the quarter [[k/4, (k+1)/4)] of the unit interval, so each
    sentence is chosen on an interval of the same length. *)
Theorem fetchRandomFact_selects_a_fact :
  forall (c : jsval) (r : Q) (st : pstate),
    character st = c ->
    defined c "name" -> defined c "films" -> defined c "height" ->
    defined c "eye_color" -> defined c "birth_year" ->
    printable (field c "name") = true ->
    printable (field (field c "films") "length") = true ->
    printable (field c "height") = true ->
    printable (field c "eye_color") = true ->
    printable (field c "birth_year") = true ->
    (0 <= r)%Q -> (r < 1)%Q ->
    let facts :=
      [ JStr (ToString (field c "name") ++ " appeared in "
              ++ ToString (field (field c "films") "length") ++ " films.");
        JStr (ToString (field c "name") ++ " is "
              ++ ToString (field c "height") ++ "cm tall.");
        JStr (ToString (field c "name") ++ " has "
              ++ ToString (field c "eye_color") ++ " eyes.");
        JStr (ToString (field c "name") ++ "'s birth year is "
              ++ ToString (field c "birth_year") ++ ".") ] in
    facts_of c = Ok facts
    /\ fst (fetchRandomFact r st) = Ok tt
    /\ randomFact (snd (fetchRandomFact r st))
       = nth (Z.to_nat (random_index r 4)) facts JUndefined
    /\ In (randomFact (snd (fetchRandomFact r st))) facts
    /\ (0 <= random_index r 4 <= 3)%Z
    /\ (forall k : Z,
          random_index r 4 = k <-> (k # 4 <= r)%Q /\ (r < (k + 1) # 4)%Q).
Proof.
  intros c r st Hst _ Hfilms _ _ _ Pname Pcount Pheight Peye Pbirth Hlo Hhi facts.
  destruct (defined_nonnullish _ _ Hfilms) as [Hc Hf].
  pose proof (facts_of_ok c Hc Hf Pname Pcount Pheight Peye Pbirth) as Hfacts.
  fold facts in Hfacts.
  pose proof (random_index_range r Hlo Hhi) as Hi.
  assert (Hstored :
            randomFact (snd (fetchRandomFact r st))
            = nth (Z.to_nat (random_index r 4)) facts JUndefined).
  { rewrite <- Hst in Hfacts. rewrite (fetchRandomFact_ok r st facts Hfacts).
    cbn [snd randomFact]. change (Z.of_nat (List.length facts)) with 4%Z.
    destruct (Z.ltb_spec (random_index r 4) 0); [lia | reflexivity]. }
  split; [exact Hfacts | split; [ | split; [exact Hstored | split; [ | split]]]].
  - rewrite <- Hst in Hfacts. rewrite (fetchRandomFact_ok r st facts Hfacts).
    reflexivity.
  - rewrite Hstored. apply nth_In. change (List.length facts) with 4%nat. lia.
  - exact Hi.
  - intros k. apply random_index_interval.
Qed.

Lemma fetchRandomFact_selects_a_fact_witness :
  facts_of luke
  = Ok [ JStr "Luke Skywalker appeared in 4 films.";
         JStr "Luke Skywalker is 172cm tall.";
         JStr "Luke Skywalker has blue eyes.";
         JStr "Luke Skywalker's birth year is 19BBY." ]
  /\ randomFact (snd (fetchRandomFact (5 # 8) (after (Effect mock_net (JStr "1")) initial)))
     = JStr "Luke Skywalker has blue eyes."
  /\ facts_of mixed
     = Ok [ JStr "R2 appeared in 1 films.";
            JStr "R2 is 1e+21cm tall.";
            JStr "R2 has true eyes.";
            JStr "R2's birth year is 33,,[object Object]." ]
  /\ randomFact (snd (fetchRandomFact (1 # 4) mixed_state))
     = JStr "R2 is 1e+21cm tall.".
Proof.
  destruct (fetchRandomFact_selects_a_fact luke (5 # 8)
              (after (Effect mock_net (JStr "1")) initial)
              eq_refl
              ltac:(eexists; split; reflexivity)
              ltac:(eexists; split; reflexivity)
              ltac:(eexists; split; reflexivity)
              ltac:(eexists; split; reflexivity)
              ltac:(eexists; split; reflexivity)
              eq_refl eq_refl eq_refl eq_refl eq_refl
              ltac:(unfold Qle; simpl; lia)
              ltac:(unfold Qlt; simpl; lia))
    as (Hfacts & _ & Hstored & _).
  destruct (fetchRandomFact_selects_a_fact mixed (1 # 4) mixed_state
              eq_refl
              ltac:(eexists; split; reflexivity)
              ltac:(eexists; split; reflexivity)
              ltac:(eexists; split; reflexivity)
              ltac:(eexists; split; reflexivity)
              ltac:(eexists; split; reflexivity)
              eq_refl eq_refl eq_refl eq_refl eq_refl
              ltac:(unfold Qle; simpl; lia)
              ltac:(unfold Qlt; simpl; lia))
    as (Hfacts' & _ & Hstored' & _).
  split; [exact Hfacts | split; [rewrite Hstored; reflexivity | ]].
  split; [exact Hfacts' | rewrite Hstored'; reflexivity].
Defined.

(** C2 as it was stated fails on a character all of whose fields are
    defined but whose [height] is an object with a [toString] property of
    its own: the template literal throws a TypeError, so the activation
    stores no sentence, and the fact shown stays what it was. *)
Lemma defined_fields_do_not_suffice :
  character tall_order_state = tall_order
  /\ defined tall_order "name" /\ defined tall_order "films"
  /\ defined tall_order "height" /\ defined tall_order "eye_color"
  /\ defined tall_order "birth_year"
  /\ (exists what,
        fetchRandomFact (1 # 2) tall_order_state
        = (Throw (TypeError what), tall_order_state))
  /\ randomFact (snd (fetchRandomFact (1 # 2) tall_order_state)) = JStr ""
  /\ forall facts,
       facts_of tall_order <> Ok facts.
Proof.
  split; [reflexivity | ].
  do 5 (split; [eexists; split; reflexivity | ]).
  split; [eexists; reflexivity | ].
  split; [reflexivity | ].
  intros facts H. discriminate H.
Qed.

(** ** The list page *)

Lemma append_assoc :
  forall a b c : string, (a ++ b) ++ c = a ++ (b ++ c).
Proof.
  induction a as [ | x a IH]; intros b c; simpl; [reflexivity | ].
  rewrite IH. reflexivity.
Qed.

Lemma append_empty_r : forall a : string, a ++ "" = a.
Proof.
  induction a as [ | x a IH]; simpl; [reflexivity | rewrite IH; reflexivity].
Qed.

(** Splitting runs through a piece with no separator up to the separator that
    ends it. *)
Lemma split_from_piece :
  forall (sep : ascii) (piece cur rest : string),
    contains sep piece = false ->
    split_from sep cur (piece ++ String sep rest)
    = (cur ++ piece) :: split_from sep "" rest.
Proof.
  intros sep piece. induction piece as [ | c piece IH]; intros cur rest Hno; simpl.
  - rewrite Ascii.eqb_refl, append_empty_r. reflexivity.
  - simpl in Hno. apply Bool.orb_false_iff in Hno as [Hc Hpiece].
    rewrite Hc, IH by exact Hpiece.
    rewrite append_assoc. reflexivity.
Qed.

(** The URLs the API gives its people: the id is the piece at position 5. *)
Lemma split_people_url :
  forall id : string,
    contains "/" id = false ->
    split "/" (people_url ++ id ++ "/")
    = ["https:"; ""; "swapi.dev"; "api"; "people"; id; ""].
Proof.
  intros id Hno. unfold split, people_url. cbn -[append].
  cbn [append]. cbn [split_from Ascii.eqb Bool.eqb].
  rewrite (split_from_piece "/" id "" "" Hno). reflexivity.
Qed.

Lemma elements_by_tag_Elem :
  forall t t' props children,
    elements_by_tag t (Elem t' props children)
    = ((if tag_eqb t t' then [Elem t' props children] else [])
       ++ flat_map (elements_by_tag t) children)%list.
Proof. reflexivity. Qed.

(** The entry of a person whose [url] is a string: keyed by the url, linking
    to the piece at position 5 of the url, showing the name. *)
Lemma person_entry_ok :
  forall person u,
    get_prop person "url" = Ok (JStr u) ->
    person_entry person
    = Ok (Elem (Host "li") [("key", Expr (JStr u))]
            [ Elem (Component "Link")
                [("href",
                  Expr (JStr ("/character/"
                              ++ ToString (nth 5 (map JStr (split "/" u)) JUndefined))))]
                [Expr (field person "name")] ]).
Proof.
  intros person u Hurl. unfold person_entry. rewrite Hurl. cbn [rbind call_split index].
  rewrite (get_prop_total person "name")
    by (eapply get_prop_ok_nonnullish; exact Hurl).
  reflexivity.
Qed.

Lemma strip_character_prefix :
  forall s, strip_prefix "/character/" ("/character/" ++ s) = Some s.
Proof. intros s. reflexivity. Qed.

Lemma rmap_person_entry :
  forall items,
    Forall has_url items ->
    exists entries,
      rmap person_entry items = Ok entries
      /\ flat_map (elements_by_tag (Host "li")) entries = entries
      /\ map entry_label entries = map (fun person => [Expr (field person "name")]) items
      /\ map (fun entry => prop "key" (props_of entry)) entries
         = map (fun person => Some (Expr (field person "url"))) items.
Proof.
  induction 1 as [ | person items [u Hurl] _ (entries & Hmap & Hli & Hlabel & Hkey)].
  - exists []. repeat split.
  - eexists. cbn [rmap]. rewrite (person_entry_ok person u Hurl), Hmap. cbn [rbind].
    split; [reflexivity | ].
    cbn [flat_map map]. rewrite Hli, Hlabel, Hkey, (get_prop_field _ _ _ Hurl).
    repeat split.
Qed.

(** C3, as the code has it: when the list request is answered with an
    object whose [results] is an array of [n] items each of which has a
    string [url], [Home] returns a page with exactly [n] navigable entries,
    the i-th one keyed by the url of the i-th item and showing the name of
    the i-th item. *)
Theorem Home_one_entry_per_item :
  forall (net : network) (res : response) (data : jsval) (items : list jsval)
         (st : pstate),
    net people_url = Ok res ->
    body res = Ok data ->
    get_prop data "results" = Ok (JArr items) ->
    Forall has_url items ->
    exists page,
      fst (Home net st) = Ok page
      /\ List.length (list_entries page) = List.length items
      /\ map entry_label (list_entries page)
         = map (fun person => [Expr (field person "name")]) items
      /\ map (fun entry => prop "key" (props_of entry)) (list_entries page)
         = map (fun person => Some (Expr (field person "url"))) items.
Proof.
  intros net res data items st Hnet Hbody Hresults Hitems.
  destruct (rmap_person_entry items Hitems) as (entries & Hmap & Hli & Hlabel & Hkey).
  exists (Elem (Component "Layout") []
            [ Elem (Host "div") []
                [ Elem (Host "h1") [] [Text "Star Wars Characters"];
                  Elem (Host "ul") [] entries ] ]).
  assert (Hentries :
            list_entries
              (Elem (Component "Layout") []
                 [ Elem (Host "div") []
                     [ Elem (Host "h1") [] [Text "Star Wars Characters"];
                       Elem (Host "ul") [] entries ] ]) = entries).
  { unfold list_entries.
    rewrite !elements_by_tag_Elem. cbn [flat_map].
    rewrite !elements_by_tag_Elem. cbn [flat_map].
    rewrite !elements_by_tag_Elem. cbn [flat_map tag_eqb String.eqb Ascii.eqb Bool.eqb app].
    rewrite Hli, !app_nil_r. reflexivity. }
  rewrite Hentries.
  split; [ | split; [ | split; assumption]].
  - unfold Home, fetchPeople, bind, fetch, json, lift, ret.
    rewrite Hnet. cbn [body fst snd]. rewrite Hbody, Hresults.
    cbn [call_map]. rewrite Hmap. reflexivity.
  - rewrite <- (length_map entry_label), Hlabel, length_map. reflexivity.
Qed.

Lemma Home_one_entry_per_item_witness :
  exists page,
    fst (Home mock_net initial) = Ok page
    /\ List.length (list_entries page) = 2%nat
    /\ map entry_label (list_entries page)
       = [[Expr (JStr "Luke Skywalker")]; [Expr (JStr "Leia Organa")]].
Proof.
  destruct (Home_one_entry_per_item mock_net
              {| body := Ok (JObj [("count", JNum "2"); ("results", JArr [luke; leia])]) |}
              (JObj [("count", JNum "2"); ("results", JArr [luke; leia])])
              [luke; leia] initial eq_refl eq_refl eq_refl
              ltac:(repeat constructor; eexists; reflexivity))
    as (page & Hpage & Hlen & Hlabel & _).
  exists page. split; [exact Hpage | split; [exact Hlen | exact Hlabel]].
Defined.

(** C3 as it was stated fails on a response of three items one of which
    has no [url]: [person.url.split] throws on that item and [Home] returns
    no page, so no entry is rendered for the two items around it either. *)
Lemma list_with_an_item_without_url :
  bad_item_net people_url
  = Ok {| body := Ok (JObj [("results", JArr [luke; nameless_item; leia])]) |}
  /\ List.length [luke; nameless_item; leia] = 3%nat
  /\ (exists what, fst (Home bad_item_net initial) = Throw (TypeError what))
  /\ forall tree, fst (Home bad_item_net initial) <> Ok tree.
Proof.
  split; [reflexivity | split; [reflexivity | split; [eexists; reflexivity | ]]].
  intros tree H. discriminate H.
Qed.

Lemma filter_all_empty :
  forall pieces : list string,
    Forall (fun piece => piece = "") pieces ->
    filter (fun piece => negb (piece =? "")) pieces = [].
Proof.
  induction 1 as [ | piece pieces -> _ IH]; [reflexivity | ].
  cbn. exact IH.
Qed.

Lemma trailing_segment_shape :
  forall u pre id rest,
    split "/" u = (pre ++ id :: rest)%list ->
    id <> "" ->
    Forall (fun piece => piece = "") rest ->
    trailing_segment u = Some id.
Proof.
  intros u pre id rest Hsplit Hid Hrest. unfold trailing_segment.
  rewrite Hsplit, filter_app. cbn [filter].
  apply String.eqb_neq in Hid. rewrite Hid. cbn [negb].
  rewrite (filter_all_empty rest Hrest), rev_app_distr. reflexivity.
Qed.

Lemma sixth_piece_shape :
  forall (pre : list string) id rest,
    List.length pre = 5%nat ->
    nth 5 (map JStr (pre ++ id :: rest)) JUndefined = JStr id.
Proof.
  intros pre id rest Hpre.
  do 6 (destruct pre as [ | ? pre]; try discriminate Hpre).
  reflexivity.
Qed.

(** The id in an entry's link is the piece at position 5 of the url. *)
Lemma person_entry_id :
  forall (person : jsval) (u : string),
    get_prop person "url" = Ok (JStr u) ->
    exists entry,
      person_entry person = Ok entry
      /\ entry_id entry = Some (ToString (nth 5 (map JStr (split "/" u)) JUndefined)).
Proof.
  intros person u Hurl. eexists. split; [apply person_entry_ok; exact Hurl | ].
  reflexivity.
Qed.

(** C1, as the code has it: the id in an entry's link is the piece at
    position 5 of the item's url split at the slashes (the text [undefined]
    when the url has fewer pieces).  When the last piece of the url that is
    not empty stands at position 5, as in
    [https://swapi.dev/api/people/<id>/], that id is the trailing path
    segment of the url. *)
Theorem navigable_id_is_sixth_piece :
  forall (person : jsval) (u : string),
    get_prop person "url" = Ok (JStr u) ->
    exists entry,
      person_entry person = Ok entry
      /\ entry_id entry = Some (ToString (nth 5 (map JStr (split "/" u)) JUndefined))
      /\ (forall pre id rest,
            split "/" u = (pre ++ id :: rest)%list ->
            List.length pre = 5%nat ->
            id <> "" ->
            Forall (fun piece => piece = "") rest ->
            entry_id entry = Some id /\ trailing_segment u = Some id).
Proof.
  intros person u Hurl.
  destruct (person_entry_id person u Hurl) as (entry & Hentry & Hid5).
  exists entry. split; [exact Hentry | split; [exact Hid5 | ]].
  intros pre id rest Hsplit Hpre Hid Hrest. split.
  - rewrite Hid5, Hsplit, (sixth_piece_shape pre id rest Hpre). reflexivity.
  - eapply trailing_segment_shape; eassumption.
Qed.

Lemma navigable_id_is_sixth_piece_witness :
  exists entry,
    person_entry luke = Ok entry
    /\ entry_id entry = Some "1"
    /\ trailing_segment "https://swapi.dev/api/people/1/" = Some "1".
Proof.
  destruct (navigable_id_is_sixth_piece luke "https://swapi.dev/api/people/1/" eq_refl)
    as (entry & Hentry & _ & Hshape).
  exists entry. split; [exact Hentry | ].
  apply (Hshape ["https:"; ""; "swapi.dev"; "api"; "people"] "1" [""]).
  - reflexivity.
  - reflexivity.
  - discriminate.
  - repeat constructor.
Defined.

(** The same for every url of the shape the API gives its people. *)
Lemma navigable_id_of_people_url :
  forall (person : jsval) (id : string),
    get_prop person "url" = Ok (JStr (people_url ++ id ++ "/")) ->
    contains "/" id = false -> id <> "" ->
    exists entry,
      person_entry person = Ok entry
      /\ entry_id entry = Some id
      /\ trailing_segment (people_url ++ id ++ "/") = Some id.
Proof.
  intros person id Hurl Hno Hid.
  destruct (person_entry_id person _ Hurl) as (entry & Hentry & Hid5).
  pose proof (split_people_url id Hno) as Hsplit.
  exists entry. split; [exact Hentry | split].
  - rewrite Hid5, Hsplit. reflexivity.
  - apply (trailing_segment_shape _ ["https:"; ""; "swapi.dev"; "api"; "people"] id [""]).
    + exact Hsplit.
    + exact Hid.
    + repeat constructor.
Qed.

(** C1 as it was stated fails on a url one directory deeper: the link goes to
    [/character/people], while the trailing path segment is [1]. *)
Lemma navigable_id_not_trailing_segment :
  get_prop luke_v1 "url" = Ok (JStr "https://swapi.dev/api/v1/people/1/")
  /\ exists entry,
       person_entry luke_v1 = Ok entry
       /\ entry_href entry = Some (Expr (JStr "/character/people"))
       /\ entry_id entry = Some "people"
       /\ trailing_segment "https://swapi.dev/api/v1/people/1/" = Some "1"
       /\ entry_id entry <> trailing_segment "https://swapi.dev/api/v1/people/1/".
Proof.
  split; [reflexivity | ].
  eexists. split; [reflexivity | ].
  repeat split. discriminate.
Qed.

(** ** The state of the detail page over its life *)


Lemma play_cons :
  forall m ms p, play (m :: ms) p = play ms (step m p).
Proof. reflexivity. Qed.

(** What every moment keeps is kept by every play. *)
Lemma play_invariant :
  forall P : page -> Prop,
    (forall m p, P p -> P (step m p)) ->
    forall ms p, P p -> P (play ms p).
Proof.
  intros P Hstep ms. induction ms as [ | m ms IH]; intros p Hp; [exact Hp | ].
  rewrite play_cons. apply IH, Hstep, Hp.
Qed.


(** What the returned JSX shows: the five fields of the [character] cell and
    the [randomFact] cell, and it is returned whenever the cell can be read. *)
Lemma Character_return_fields :
  forall c fact page,
    Character_return c fact = Ok page ->
    rendered_exprs page
    = [ field c "name"; field c "mass"; field c "hair_color";
        field c "skin_color"; field c "gender"; fact ].
Proof.
  intros c fact page H. unfold Character_return in H.
  destruct (nullish c) eqn:Hc.
  - destruct (get_prop_throws c "name" Hc) as [what Hthrow].
    rewrite Hthrow in H. discriminate H.
  - rewrite !(get_prop_total c) in H by exact Hc. cbn [rbind] in H.
    injection H as <-. reflexivity.
Qed.

Lemma Character_return_total :
  forall c fact, nullish c = false -> exists page, Character_return c fact = Ok page.
Proof.
  intros c fact Hc. unfold Character_return.
  rewrite !(get_prop_total c) by exact Hc. eexists. reflexivity.
Qed.



(** With requests overlapping, the response that settled last need not be
    the one requested last: after [overlapping] the page holds person 1,
    requested first, while the last request of the log fetched person 5. *)
Lemma overlapping_requests_race :
  map fst (requests (cells (play overlapping opened)))
  = ["https://swapi.dev/api/people/1"; "https://swapi.dev/api/people/5"]
  /\ character (cells (play overlapping opened)) = luke
  /\ last_fetched (requests (cells (play overlapping opened))) = leia
  /\ last_fetched (settled (play overlapping opened)) = luke.
Proof. repeat split. Qed.

(** A run one request at a time is the play of its schedule. *)
Lemma run_is_a_play :
  forall evs st log,
    cells (play (schedule evs) {| cells := st; in_flight := []; settled := log |})
    = run evs st
    /\ in_flight (play (schedule evs) {| cells := st; in_flight := []; settled := log |})
       = [].
Proof.
  induction evs as [ | [net id | r] evs IH]; intros st log.
  - split; reflexivity.
  - cbn [schedule]. rewrite !play_cons. cbn [run fold_left].
    unfold after, handle, Character_effect.
    destruct (truthy id) eqn:Hid.
    + cbn [step]. rewrite Hid. cbn [step cells in_flight settled app nth_error].
      unfold fetchCharacter_start, spawn, fetchCharacter, bind, fetch, json, lift,
        setCharacter, ret.
      cbn [fst snd fetchCharacter_resume].
      unfold bind, lift, ret, json, lift, setCharacter.
      destruct (net (character_url id)) as [res | e];
        cbn [step cells in_flight settled app nth_error remove_nth fst snd
             fetchCharacter_resume].
      * unfold bind, json, lift, setCharacter, ret.
        destruct (body res) as [data | e];
          cbn [cells in_flight settled character randomFact effects requests
               rejections fst snd]; apply IH.
      * cbn [character randomFact effects requests rejections]. apply IH.
    + cbn [step]. rewrite Hid. cbn [step in_flight nth_error]. apply IH.
  - cbn [schedule]. rewrite play_cons. cbn [step run fold_left cells in_flight settled].
    apply IH.
Qed.

(** ** Failures of the two retrievals *)

Lemma fetchPeople_fails :
  forall net e st,
    fails_with net people_url e ->
    fst (fetchPeople net st) = Throw e /\ fst (Home net st) = Throw e.
Proof.
  intros net e st [Hnet | (res & Hnet & Hbody)];
    unfold Home, fetchPeople, bind, fetch, json, lift; rewrite Hnet; cbn.
  - split; reflexivity.
  - rewrite Hbody. split; reflexivity.
Qed.

Lemma fetchCharacter_fails :
  forall net id e st,
    fails_with net (character_url id) e ->
    fst (fetchCharacter net id st) = Throw e
    /\ character (snd (fetchCharacter net id st)) = character st
    /\ rejections (snd (fetchCharacter net id st)) = rejections st.
Proof.
  intros net id e st [Hnet | (res & Hnet & Hbody)];
    unfold fetchCharacter, bind, fetch, json, lift, setCharacter; rewrite Hnet; cbn.
  - repeat split.
  - rewrite Hbody. repeat split.
Qed.

Lemma Character_effect_fails :
  forall net id e st,
    truthy id = true ->
    fails_with net (character_url id) e ->
    fst (Character_effect net id st) = Ok tt
    /\ rejections (snd (Character_effect net id st)) = (rejections st ++ [e])%list
    /\ character (snd (Character_effect net id st)) = character st.
Proof.
  intros net id e st Hid Hfail.
  destruct (fetchCharacter_fails net id e st Hfail) as (Hthrow & Hchar & Hrej).
  unfold Character_effect. rewrite Hid. unfold spawn.
  destruct (fetchCharacter net id st) as [[[] | e'] st'] eqn:Hrun;
    cbn [fst snd character rejections] in *.
  - discriminate Hthrow.
  - injection Hthrow as ->. rewrite Hrej. repeat split. exact Hchar.
Qed.

(** C6: a failure of the fetch or of the parse is handled nowhere.  In the
    list retrieval the error [e] comes out of [fetchPeople] and out of
    [Home] as it went in: the page is a rejected promise.  In the detail
    retrieval [e] comes out of [fetchCharacter] as it went in, with the
    [character] cell as it was; the effect that called it has dropped the
    promise, so [e] ends as an unhandled rejection, and a page whose cell is
    still [null] throws a TypeError when its JSX reads the fields. *)
Theorem retrieval_failures_are_unhandled :
  (forall (net : network) (e : jserror) (st : pstate),
      fails_with net people_url e ->
      fst (fetchPeople net st) = Throw e /\ fst (Home net st) = Throw e)
  /\ (forall (net : network) (id : jsval) (e : jserror) (st : pstate),
        fails_with net (character_url id) e ->
        fst (fetchCharacter net id st) = Throw e
        /\ character (snd (fetchCharacter net id st)) = character st
        /\ (truthy id = true ->
            rejections (snd (Character_effect net id st)) = (rejections st ++ [e])%list
            /\ character (snd (Character_effect net id st)) = character st
            /\ (character st = JNull ->
                exists what,
                  Character_return (character (snd (Character_effect net id st)))
                    (randomFact (snd (Character_effect net id st)))
                  = Throw (TypeError what)))).
Proof.
  split.
  - intros net e st Hfail. apply fetchPeople_fails. exact Hfail.
  - intros net id e st Hfail.
    destruct (fetchCharacter_fails net id e st Hfail) as (Hthrow & Hchar & _).
    split; [exact Hthrow | split; [exact Hchar | ]].
    intros Hid.
    destruct (Character_effect_fails net id e st Hid Hfail) as (_ & Hrej & Hsame).
    split; [exact Hrej | split; [exact Hsame | ]].
    intros Hnull. rewrite Hsame, Hnull. apply Character_return_null.
Qed.

Lemma retrieval_failures_are_unhandled_witness :
  fst (Home offline initial) = Throw (NetworkError "fetch failed")
  /\ fst (Home garbled initial) = Throw (SyntaxError "Unexpected token < in JSON")
  /\ rejections (snd (Character_effect offline (JStr "1") initial))
     = [NetworkError "fetch failed"]
  /\ rejections (snd (Character_effect garbled (JStr "1") initial))
     = [SyntaxError "Unexpected token < in JSON"]
  /\ exists what,
       Character_return (character (snd (Character_effect offline (JStr "1") initial)))
         (randomFact (snd (Character_effect offline (JStr "1") initial)))
       = Throw (TypeError what).
Proof.
  destruct retrieval_failures_are_unhandled as [Hlist Hdetail].
  split; [ | split; [ | split; [ | split]]].
  - apply (Hlist offline (NetworkError "fetch failed") initial).
    left. reflexivity.
  - apply (Hlist garbled (SyntaxError "Unexpected token < in JSON") initial).
    right. eexists. split; reflexivity.
  - apply (Hdetail offline (JStr "1") (NetworkError "fetch failed") initial).
    + left. reflexivity.
    + reflexivity.
  - apply (Hdetail garbled (JStr "1") (SyntaxError "Unexpected token < in JSON") initial).
    + right. eexists. split; reflexivity.
    + reflexivity.
  - apply (Hdetail offline (JStr "1") (NetworkError "fetch failed") initial).
    + left. reflexivity.
    + reflexivity.
    + reflexivity.
Defined.

(** * Further properties of the pages *)

(** ** The list page: its request and its failures *)

Lemma call_split_throws_TypeError :
  forall v sep e, call_split v sep = Throw e -> exists what, e = TypeError what.
Proof.
  intros v sep e H. destruct v; simpl in H; try discriminate H;
    injection H as <-; eexists; reflexivity.
Qed.

(** The callback of the list throws nothing but TypeErrors, and it throws
    one on every item whose [url] is not a string. *)
Lemma person_entry_throws_TypeError :
  forall person e, person_entry person = Throw e -> exists what, e = TypeError what.
Proof.
  intros person e H. unfold person_entry in H.
  destruct (get_prop person "url") as [url | e1] eqn:Hurl; cbn [rbind] in H.
  - destruct (call_split url "/") as [pieces | e2] eqn:Hsplit; cbn [rbind] in H.
    + destruct url; simpl in Hsplit; try discriminate Hsplit.
      injection Hsplit as <-. cbn [index rbind] in H.
      rewrite (get_prop_total person "name") in H
        by (eapply get_prop_ok_nonnullish; exact Hurl).
      discriminate H.
    + injection H as <-. eapply call_split_throws_TypeError; exact Hsplit.
  - injection H as <-. eapply get_prop_throws_TypeError; exact Hurl.
Qed.

Lemma person_entry_without_url :
  forall person, ~ has_url person -> exists e, person_entry person = Throw e.
Proof.
  intros person Hno. unfold person_entry.
  destruct (get_prop person "url") as [url | e1] eqn:Hurl; cbn [rbind].
  - destruct url; cbn [call_split rbind]; try (eexists; reflexivity).
    exfalso. apply Hno. eexists. exact Hurl.
  - eexists. reflexivity.
Qed.

(** Mapping stops at the first element the callback throws on. *)
Lemma rmap_throws :
  forall (A B : Type) (f : A -> result B) (l : list A),
    Exists (fun x => exists e, f x = Throw e) l ->
    exists x e, In x l /\ f x = Throw e /\ rmap f l = Throw e.
Proof.
  intros A B f l. induction l as [ | a l IH]; intros Hex.
  - inversion Hex.
  - cbn [rmap]. destruct (f a) as [b | e] eqn:Hfa; cbn [rbind].
    + assert (Hrest : Exists (fun x => exists e, f x = Throw e) l).
      { inversion Hex as [? ? [e He] | ? ? Hl]; subst; [congruence | exact Hl]. }
      destruct (IH Hrest) as (x & e & Hin & Hfx & Hmap).
      exists x, e. rewrite Hmap. repeat split; [right; exact Hin | exact Hfx].
    + exists a, e. repeat split; [left; reflexivity | exact Hfa].
Qed.

(** X1: whatever the network answers (a list, a failure, a body of another
    shape) and whether [Home] returns or throws, one call of [Home] sends
    exactly one request, to [https://swapi.dev/api/people/], and leaves the
    rest of the program state as it was. *)
Theorem Home_sends_one_request :
  forall (net : network) (st : pstate),
    requests (snd (Home net st))
    = (requests st ++ [(people_url, net people_url)])%list
    /\ character (snd (Home net st)) = character st
    /\ randomFact (snd (Home net st)) = randomFact st
    /\ effects (snd (Home net st)) = effects st
    /\ rejections (snd (Home net st)) = rejections st.
Proof.
  intros net st. unfold Home, fetchPeople, bind, fetch, json, lift, ret.
  destruct (net people_url) as [res | e]; cbn [fst snd]; [ | repeat split].
  destruct (body res) as [data | e]; [ | repeat split].
  destruct (get_prop data "results") as [people | e]; [ | repeat split].
  destruct (call_map people person_entry); repeat split.
Qed.

(** X2: when the body parses but its [results] is not an array (the body is
    [null], or an object of another shape such as the API's 404 answer),
    [Home] throws a TypeError: no page is returned, not even an empty
    list. *)
Theorem Home_without_results_throws :
  forall (net : network) (res : response) (data : jsval) (st : pstate),
    net people_url = Ok res ->
    body res = Ok data ->
    (forall items, get_prop data "results" <> Ok (JArr items)) ->
    exists what, fst (Home net st) = Throw (TypeError what).
Proof.
  intros net res data st Hnet Hbody Hno.
  unfold Home, fetchPeople, bind, fetch, json, lift, ret.
  rewrite Hnet. cbn [fst snd body]. rewrite Hbody.
  destruct (get_prop data "results") as [people | e] eqn:Hresults.
  - destruct people; cbn [call_map fst]; try (eexists; reflexivity).
    exfalso. apply (Hno items). reflexivity.
  - destruct (get_prop_throws_TypeError _ _ _ Hresults) as [what ->].
    eexists. reflexivity.
Qed.

Lemma Home_without_results_throws_witness :
  exists what, fst (Home not_found_net initial) = Throw (TypeError what).
Proof.
  apply (Home_without_results_throws not_found_net {| body := Ok not_found |}
           not_found initial eq_refl eq_refl).
  intros items H. discriminate H.
Defined.

(** X3: the list is all or nothing: if a single item of [results] has no
    string [url], [Home] throws a TypeError and returns no page, whatever
    the other items are. *)
Theorem Home_bad_item_throws :
  forall (net : network) (res : response) (data : jsval) (items : list jsval)
         (st : pstate),
    net people_url = Ok res ->
    body res = Ok data ->
    get_prop data "results" = Ok (JArr items) ->
    Exists (fun person => ~ has_url person) items ->
    exists what, fst (Home net st) = Throw (TypeError what).
Proof.
  intros net res data items st Hnet Hbody Hresults Hbad.
  assert (Hthrows : Exists (fun person => exists e, person_entry person = Throw e) items).
  { eapply Exists_impl; [ | exact Hbad].
    intros person Hno. apply person_entry_without_url. exact Hno. }
  destruct (rmap_throws _ _ person_entry items Hthrows) as (person & e & _ & He & Hmap).
  destruct (person_entry_throws_TypeError person e He) as [what ->].
  exists what.
  unfold Home, fetchPeople, bind, fetch, json, lift, ret.
  rewrite Hnet. cbn [fst snd body]. rewrite Hbody, Hresults.
  cbn [call_map]. rewrite Hmap. reflexivity.
Qed.

Lemma Home_bad_item_throws_witness :
  exists what, fst (Home bad_item_net initial) = Throw (TypeError what).
Proof.
  apply (Home_bad_item_throws bad_item_net
           {| body := Ok (JObj [("results", JArr [luke; nameless_item; leia])]) |}
           (JObj [("results", JArr [luke; nameless_item; leia])])
           [luke; nameless_item; leia] initial eq_refl eq_refl eq_refl).
  apply Exists_cons_tl, Exists_cons_hd.
  intros [u Hu]. discriminate Hu.
Defined.

(** ** The link of an entry *)

Lemma contains_append :
  forall c a b, contains c (a ++ b) = contains c a || contains c b.
Proof.
  intros c a b. induction a as [ | x a IH]; simpl; [reflexivity | ].
  rewrite IH, Bool.orb_assoc. reflexivity.
Qed.

(** No piece of a split holds the separator. *)
Lemma split_from_no_sep :
  forall sep s cur,
    contains sep cur = false ->
    Forall (fun piece => contains sep piece = false) (split_from sep cur s).
Proof.
  intros sep s. induction s as [ | c s IH]; intros cur Hcur; simpl.
  - constructor; [exact Hcur | constructor].
  - destruct (Ascii.eqb c sep) eqn:Hc.
    + constructor; [exact Hcur | apply IH; reflexivity].
    + apply IH. rewrite contains_append, Hcur. simpl. rewrite Hc. reflexivity.
Qed.

Lemma person_entry_ok_has_url :
  forall person entry, person_entry person = Ok entry -> has_url person.
Proof.
  intros person entry H. unfold person_entry in H.
  destruct (get_prop person "url") as [url | e] eqn:Hurl; cbn [rbind] in H;
    [ | discriminate H].
  destruct url; cbn [call_split rbind] in H; try discriminate H.
  eexists. exact Hurl.
Qed.

(** X4: an item whose url splits into fewer than six pieces (fewer than five
    slashes) still gets an entry, and its link goes to
    [/character/undefined]: indexing past the end gives [undefined], which
    the template literal prints. *)
Theorem short_url_links_to_undefined :
  forall (person : jsval) (u : string),
    get_prop person "url" = Ok (JStr u) ->
    (List.length (split "/" u) <= 5)%nat ->
    exists entry,
      person_entry person = Ok entry
      /\ entry_href entry = Some (Expr (JStr "/character/undefined"))
      /\ entry_id entry = Some "undefined".
Proof.
  intros person u Hurl Hshort. eexists.
  split; [apply person_entry_ok; exact Hurl | ].
  unfold entry_id, entry_href, entry_link. cbn.
  rewrite nth_overflow by (rewrite length_map; exact Hshort).
  split; reflexivity.
Qed.

Lemma short_url_links_to_undefined_witness :
  exists entry,
    person_entry short_url_person = Ok entry
    /\ entry_href entry = Some (Expr (JStr "/character/undefined"))
    /\ entry_id entry = Some "undefined".
Proof.
  apply (short_url_links_to_undefined short_url_person "https://swapi.dev/" eq_refl).
  cbn. lia.
Defined.

(** X5: every entry the list callback returns links to [/character/<id>]
    for an [id] that holds no slash, so the target is always a single
    segment under [/character/], whatever the url of the item was. *)
Theorem entry_id_has_no_slash :
  forall (person : jsval) (entry : node),
    person_entry person = Ok entry ->
    exists id,
      entry_href entry = Some (Expr (JStr ("/character/" ++ id)))
      /\ entry_id entry = Some id
      /\ contains "/" id = false.
Proof.
  intros person entry Hentry.
  destruct (person_entry_ok_has_url person entry Hentry) as [u Hurl].
  rewrite (person_entry_ok person u Hurl) in Hentry. injection Hentry as <-.
  exists (ToString (nth 5 (map JStr (split "/" u)) JUndefined)).
  split; [reflexivity | split; [reflexivity | ]].
  destruct (le_lt_dec (List.length (split "/" u)) 5) as [Hshort | Hlong].
  - rewrite nth_overflow by (rewrite length_map; exact Hshort). reflexivity.
  - rewrite (nth_indep _ JUndefined (JStr "")) by (rewrite length_map; exact Hlong).
    rewrite (map_nth JStr). cbn [ToString].
    pose proof (split_from_no_sep "/" u "" eq_refl) as Hall.
    rewrite Forall_forall in Hall. apply Hall. apply nth_In. exact Hlong.
Qed.

Lemma entry_id_has_no_slash_witness :
  exists id,
    entry_href
      (Elem (Host "li") [("key", Expr (JStr "https://swapi.dev/api/v1/people/1/"))]
         [ Elem (Component "Link") [("href", Expr (JStr "/character/people"))]
             [Expr (JStr "Luke Skywalker")] ])
    = Some (Expr (JStr ("/character/" ++ id)))
    /\ contains "/" id = false.
Proof.
  destruct (entry_id_has_no_slash luke_v1 _ eq_refl) as (id & Hhref & _ & Hno).
  exists id. split; [exact Hhref | exact Hno].
Defined.

(** X6: from the list to the detail page and back to the API: for an item
    whose url is [https://swapi.dev/api/people/<id>/], the id in its link,
    given to the effect of the detail page as the route parameter, makes the
    effect request that very url without its final slash. *)
Theorem link_id_requests_item_url :
  forall (person : jsval) (id : string),
    get_prop person "url" = Ok (JStr (people_url ++ id ++ "/")) ->
    contains "/" id = false ->
    id <> "" ->
    exists entry link_id,
      person_entry person = Ok entry
      /\ entry_id entry = Some link_id
      /\ character_url (JStr link_id) ++ "/" = people_url ++ id ++ "/"
      /\ forall (net : network) (st : pstate),
           map fst (requests (snd (Character_effect net (JStr link_id) st)))
           = (map fst (requests st) ++ [(people_url ++ id)%string])%list.
Proof.
  intros person id Hurl Hno Hid.
  destruct (navigable_id_of_people_url person id Hurl Hno Hid) as (entry & Hentry & Hlink & _).
  exists entry, id. split; [exact Hentry | split; [exact Hlink | split]].
  - unfold character_url, people_url. cbn [ToString]. rewrite append_assoc. reflexivity.
  - intros net st.
    assert (Htruthy : truthy (JStr id) = true).
    { cbn [truthy]. apply String.eqb_neq in Hid. rewrite Hid. reflexivity. }
    rewrite (Character_effect_requests net (JStr id) st Htruthy), map_app.
    reflexivity.
Qed.

Lemma link_id_requests_item_url_witness :
  exists entry link_id,
    person_entry luke = Ok entry
    /\ entry_id entry = Some link_id
    /\ map fst (requests (snd (Character_effect mock_net (JStr link_id) initial)))
       = ["https://swapi.dev/api/people/1"].
Proof.
  destruct (link_id_requests_item_url luke "1" eq_refl eq_refl ltac:(discriminate))
    as (entry & link_id & Hentry & Hlink & _ & Hreq).
  exists entry, link_id. split; [exact Hentry | split; [exact Hlink | ]].
  rewrite (Hreq mock_net initial). reflexivity.
Defined.

(** ** The effect of the detail page *)

Lemma Character_effect_keeps :
  forall net id st,
    fst (Character_effect net id st) = Ok tt
    /\ randomFact (snd (Character_effect net id st)) = randomFact st
    /\ effects (snd (Character_effect net id st)) = effects st.
Proof.
  intros net id st. unfold Character_effect.
  destruct (truthy id); [ | repeat split].
  unfold spawn, fetchCharacter, bind, fetch, json, lift, setCharacter.
  destruct (net (character_url id)) as [res | e]; cbn; [ | repeat split].
  destruct (body res); repeat split.
Qed.

Lemma Character_effect_rejections :
  forall net id st,
    truthy id = true ->
    rejections (snd (Character_effect net id st))
    = (rejections st
       ++ match failure_of (character_url id, net (character_url id)) with
          | Some e => [e]
          | None => []
          end)%list.
Proof.
  intros net id st Hid. unfold Character_effect. rewrite Hid.
  unfold spawn, fetchCharacter, bind, fetch, json, lift, setCharacter, failure_of.
  cbn [snd].
  destruct (net (character_url id)) as [res | e]; cbn.
  - destruct (body res); cbn; [rewrite app_nil_r | ]; reflexivity.
  - reflexivity.
Qed.

(** X7: the callback of [useEffect] never throws into the render.  For a
    route parameter that passes [if (id)] it sends exactly one request, to
    [https://swapi.dev/api/people/<id>], and when that is answered and
    parsed the value becomes the [character] cell; for [undefined], [null]
    or the empty string it does nothing at all.  It never touches
    [randomFact]. *)
Theorem Character_effect_one_request :
  forall (net : network) (id : jsval) (st : pstate),
    fst (Character_effect net id st) = Ok tt
    /\ randomFact (snd (Character_effect net id st)) = randomFact st
    /\ (truthy id = true ->
        requests (snd (Character_effect net id st))
        = (requests st ++ [(character_url id, net (character_url id))])%list)
    /\ (truthy id = false -> snd (Character_effect net id st) = st)
    /\ (forall res data,
          truthy id = true ->
          net (character_url id) = Ok res ->
          body res = Ok data ->
          character (snd (Character_effect net id st)) = data
          /\ rejections (snd (Character_effect net id st)) = rejections st).
Proof.
  intros net id st.
  destruct (Character_effect_keeps net id st) as (Hok & Hfact & _).
  split; [exact Hok | split; [exact Hfact | split; [ | split]]].
  - intros Hid. apply Character_effect_requests. exact Hid.
  - intros Hid. rewrite (Character_effect_falsy net id st Hid). reflexivity.
  - intros res data Hid Hnet Hbody. eapply Character_effect_success; eassumption.
Qed.

Lemma Character_effect_one_request_witness :
  map fst (requests (snd (Character_effect mock_net (JStr "1") initial)))
  = ["https://swapi.dev/api/people/1"]
  /\ character (snd (Character_effect mock_net (JStr "1") initial)) = luke
  /\ snd (Character_effect mock_net (JStr "") initial) = initial.
Proof.
  destruct (Character_effect_one_request mock_net (JStr "1") initial)
    as (_ & _ & Hreq & _ & Hdata).
  destruct (Character_effect_one_request mock_net (JStr "") initial)
    as (_ & _ & _ & Hnone & _).
  split; [rewrite (Hreq eq_refl); reflexivity | split].
  - apply (Hdata {| body := Ok luke |} luke eq_refl eq_refl eq_refl).
  - apply Hnone. reflexivity.
Defined.

(** ** Runs of the detail page *)

Lemma run_cons :
  forall ev evs st, run (ev :: evs) st = run evs (after ev st).
Proof. reflexivity. Qed.

Lemma failures_app :
  forall l l', failures (l ++ l') = (failures l ++ failures l')%list.
Proof.
  induction l as [ | entry l IH]; intros l'; cbn [failures app]; [reflexivity | ].
  rewrite IH. destruct (failure_of entry); reflexivity.
Qed.

(** X8: over any run, the requests of the detail page are, in order, one
    request to [https://swapi.dev/api/people/<id>] for each run of the
    effect whose [id] passes [if (id)], and nothing else: a click sends
    none, no other endpoint is asked, and nothing is cached or deduplicated
    (the same [id] again is fetched again). *)
Theorem requests_follow_effects :
  forall (evs : list event) (st : pstate),
    map fst (requests (run evs st))
    = (map fst (requests st) ++ map character_url (effect_ids evs))%list.
Proof.
  induction evs as [ | ev evs IH]; intros st.
  - cbn. rewrite app_nil_r. reflexivity.
  - rewrite run_cons, IH. destruct ev as [net id | r]; unfold after, handle; cbn [effect_ids].
    + destruct (truthy id) eqn:Hid.
      * rewrite (Character_effect_requests net id st Hid), map_app, <- app_assoc.
        reflexivity.
      * rewrite (Character_effect_falsy net id st Hid). reflexivity.
    + destruct (fetchRandomFact_keeps r st) as (_ & _ & Hq & _).
      rewrite Hq. reflexivity.
Qed.

Lemma step_keeps_rejections :
  forall m p,
    rejections (cells p) = failures (settled p) ->
    rejections (cells (step m p)) = failures (settled (step m p)).
Proof.
  intros [net id | k | r] p Hinv; cbn [step].
  - destruct (truthy id); exact Hinv.
  - destruct (nth_error (in_flight p) k) as [[url reply | url res] | ]; [ | | exact Hinv].
    + unfold fetchCharacter_resume, bind, lift, ret.
      destruct reply as [res | e]; cbn [cells settled rejections]; [exact Hinv | ].
      rewrite failures_app, Hinv. reflexivity.
    + unfold fetchCharacter_resume, bind, json, lift, setCharacter, ret.
      destruct (body res) as [data | e] eqn:Hbody; cbn [cells settled rejections];
        rewrite failures_app, Hinv; cbn [failures]; unfold failure_of;
        cbn [snd request_of]; rewrite Hbody; [rewrite app_nil_r | ]; reflexivity.
  - cbn [cells settled]. destruct (fetchRandomFact_keeps r (cells p)) as (_ & _ & _ & Hj).
    rewrite Hj. exact Hinv.
Qed.

Lemma remove_nth_permutation :
  forall (A : Type) (l : list A) (k : nat) (x : A),
    nth_error l k = Some x -> Permutation l (x :: remove_nth k l).
Proof.
  intros A l. induction l as [ | y l IH]; intros k x Hk.
  - destruct k; discriminate Hk.
  - destruct k as [ | k]; cbn in Hk |- *.
    + injection Hk as ->. apply Permutation_refl.
    + eapply Permutation_trans; [apply perm_skip, (IH k x Hk) | apply perm_swap].
Qed.

(** Every request of the log is in flight or has settled, once. *)
Lemma step_keeps_requests :
  forall m p,
    Permutation (requests (cells p)) (settled p ++ map request_of (in_flight p)) ->
    Permutation (requests (cells (step m p)))
      (settled (step m p) ++ map request_of (in_flight (step m p))).
Proof.
  intros [net id | k | r] p Hinv; cbn [step].
  - destruct (truthy id); [ | exact Hinv].
    cbn [cells settled in_flight fetchCharacter_start fetch fst snd requests request_of].
    rewrite map_app, app_assoc. cbn [map request_of].
    apply Permutation_app_tail. exact Hinv.
  - destruct (nth_error (in_flight p) k) as [t | ] eqn:Hk; [ | exact Hinv].
    pose proof (remove_nth_permutation _ _ _ _ Hk) as Hperm.
    assert (Hdone :
              Permutation (requests (cells p))
                ((settled p ++ [request_of t])
                 ++ map request_of (remove_nth k (in_flight p)))).
    { eapply Permutation_trans; [exact Hinv | ].
      rewrite <- app_assoc. apply Permutation_app_head.
      apply (Permutation_map request_of) in Hperm. exact Hperm. }
    destruct t as [url reply | url res];
      unfold fetchCharacter_resume, bind, json, lift, setCharacter, ret.
    + destruct reply as [res | e]; cbn [cells settled in_flight requests]; [ | exact Hdone].
      eapply Permutation_trans; [exact Hinv | ].
      apply Permutation_app_head. rewrite map_app. cbn [map request_of].
      apply (Permutation_map request_of) in Hperm. cbn [map request_of] in Hperm.
      eapply Permutation_trans; [exact Hperm | ].
      apply Permutation_cons_append.
    + destruct (body res); cbn [cells settled in_flight requests]; exact Hdone.
  - cbn [cells settled in_flight].
    destruct (fetchRandomFact_keeps r (cells p)) as (_ & _ & Hq & _).
    rewrite Hq. exact Hinv.
Qed.

Lemma failures_permutation :
  forall l l', Permutation l l' -> Permutation (failures l) (failures l').
Proof.
  induction 1 as [ | x l l' _ IH | x y l | l l' l'' _ IH1 _ IH2]; cbn [failures].
  - apply Permutation_refl.
  - destruct (failure_of x); [apply perm_skip | ]; exact IH.
  - destruct (failure_of x), (failure_of y);
      first [apply perm_swap | apply Permutation_refl].
  - eapply Permutation_trans; eassumption.
Qed.

(** X9: with the calls of [fetchCharacter] overlapping in any way, the
    unhandled rejections are exactly the errors of the failed requests, in
    the order in which the requests settled: every request that failed, in
    its fetch or in the parse of its body, ends as one unhandled rejection,
    none is swallowed, and nothing else is ever rejected.  Every request of
    the log is in flight or has settled, once; so when nothing is in flight
    the rejections are the failures of the request log, up to the order. *)
Theorem rejections_are_the_failures :
  forall ms : list moment,
    rejections (cells (play ms opened)) = failures (settled (play ms opened))
    /\ Permutation (requests (cells (play ms opened)))
         (settled (play ms opened) ++ map request_of (in_flight (play ms opened)))
    /\ (in_flight (play ms opened) = [] ->
        Permutation (rejections (cells (play ms opened)))
          (failures (requests (cells (play ms opened))))).
Proof.
  intros ms.
  pose proof (play_invariant
                (fun p => rejections (cells p) = failures (settled p))
                step_keeps_rejections ms opened eq_refl) as Hrej.
  pose proof (play_invariant
                (fun p => Permutation (requests (cells p))
                            (settled p ++ map request_of (in_flight p)))
                step_keeps_requests ms opened (Permutation_refl _)) as Hreq.
  cbv beta in Hrej, Hreq.
  split; [exact Hrej | split; [exact Hreq | ]].
  intros Hnone. rewrite Hnone in Hreq. cbn [map] in Hreq. rewrite app_nil_r in Hreq.
  rewrite Hrej. apply failures_permutation, Permutation_sym. exact Hreq.
Qed.

Lemma rejections_are_the_failures_witness :
  rejections (cells (play failing_overlap opened))
  = [SyntaxError "Unexpected token < in JSON"; NetworkError "fetch failed"]
  /\ failures (requests (cells (play failing_overlap opened)))
     = [NetworkError "fetch failed"; SyntaxError "Unexpected token < in JSON"]
  /\ Permutation (rejections (cells (play failing_overlap opened)))
       (failures (requests (cells (play failing_overlap opened)))).
Proof.
  destruct (rejections_are_the_failures failing_overlap) as (Hrej & _ & Hdone).
  split; [rewrite Hrej; reflexivity | split; [reflexivity | ]].
  apply Hdone. reflexivity.
Defined.

(** ** The selector on every state *)

(** X10: an activation of [fetchRandomFact] returns normally exactly when
    the [character] cell and its [films] are neither [null] nor
    [undefined] and the five values printed (the name, [films.length], the
    height, the eye color and the birth year) convert to text; otherwise (a
    click before the character is loaded, a body without [films], a field
    that is an object with a [toString] of its own) it throws a TypeError
    and leaves the whole state, the shown fact included, as it was.  The
    other fields may be missing: they print as [undefined]. *)
Theorem fetchRandomFact_returns_iff :
  forall (r : Q) (st : pstate),
    (fst (fetchRandomFact r st) = Ok tt
     <-> nullish (character st) = false
         /\ nullish (field (character st) "films") = false
         /\ printable (field (character st) "name") = true
         /\ printable (field (field (character st) "films") "length") = true
         /\ printable (field (character st) "height") = true
         /\ printable (field (character st) "eye_color") = true
         /\ printable (field (character st) "birth_year") = true)
    /\ (forall e,
          fst (fetchRandomFact r st) = Throw e ->
          (exists what, e = TypeError what) /\ snd (fetchRandomFact r st) = st).
Proof.
  intros r st.
  destruct (facts_of (character st)) as [facts | e0] eqn:Hfacts.
  - rewrite (fetchRandomFact_ok r st facts Hfacts). cbn [fst snd]. split.
    + split; [intros _; eapply facts_of_ok_inv; exact Hfacts | reflexivity].
    + intros e He. discriminate He.
  - rewrite (fetchRandomFact_throw r st _ Hfacts). cbn [fst snd]. split.
    + split; [intros H; discriminate H | ].
      intros (Hc & Hf & Pname & Pcount & Pheight & Peye & Pbirth).
      rewrite (facts_of_ok _ Hc Hf Pname Pcount Pheight Peye Pbirth) in Hfacts.
      discriminate Hfacts.
    + intros e He. injection He as <-.
      split; [eapply facts_of_throws_TypeError; exact Hfacts | reflexivity].
Qed.

Lemma fetchRandomFact_returns_iff_witness :
  (exists what, fst (fetchRandomFact (1 # 2) initial) = Throw (TypeError what))
  /\ snd (fetchRandomFact (1 # 2) initial) = initial
  /\ (exists what, fst (fetchRandomFact (1 # 2) tall_order_state) = Throw (TypeError what))
  /\ fst (fetchRandomFact (1 # 2) (after (Effect mock_net (JStr "1")) initial)) = Ok tt.
Proof.
  destruct (fetchRandomFact_returns_iff (1 # 2) initial) as [_ Hnull].
  destruct (fetchRandomFact_returns_iff (1 # 2) tall_order_state) as [_ Hodd].
  destruct (fetchRandomFact_returns_iff (1 # 2) (after (Effect mock_net (JStr "1")) initial))
    as [Hok _].
  destruct (Hnull _ eq_refl) as [[what Hwhat] Hsame].
  destruct (Hodd _ eq_refl) as [[what' Hwhat'] _].
  split; [exists what; rewrite <- Hwhat; reflexivity | split; [exact Hsame | split]].
  - exists what'. rewrite <- Hwhat'. reflexivity.
  - apply Hok. repeat split.
Defined.

(** X11: the last click wins: the state after two activations is the state
    after the second alone.  The shown fact depends on the loaded character
    and the last random number only, never on the fact shown before. *)
Theorem last_click_wins :
  forall (r1 r2 : Q) (st : pstate),
    after (Click r2) (after (Click r1) st) = after (Click r2) st.
Proof.
  intros r1 r2 st. unfold after, handle.
  destruct (facts_of (character st)) as [facts | e] eqn:Hfacts.
  - rewrite (fetchRandomFact_ok r1 st facts Hfacts). cbn [snd].
    rewrite (fetchRandomFact_ok r2 st facts Hfacts).
    rewrite (fetchRandomFact_ok r2 _ facts) by exact Hfacts.
    reflexivity.
  - rewrite (fetchRandomFact_throw r1 st e Hfacts). reflexivity.
Qed.

(** X12: each of the four facts can come up: for every position [k] below 4
    there is a value of [Math.random()] in [[0, 1)] for which the activation
    stores the fact at position [k]. *)
Theorem every_fact_can_be_selected :
  forall (st : pstate) (facts : list jsval) (k : nat),
    facts_of (character st) = Ok facts ->
    (k < 4)%nat ->
    exists r : Q,
      (0 <= r)%Q /\ (r < 1)%Q
      /\ random_index r 4 = Z.of_nat k
      /\ randomFact (snd (fetchRandomFact r st)) = nth k facts JUndefined.
Proof.
  intros st facts k Hfacts Hk.
  exists (Z.of_nat k # 4).
  assert (Hidx : random_index (Z.of_nat k # 4) 4 = Z.of_nat k).
  { apply random_index_interval. split; [apply Qle_refl | ].
    unfold Qlt. cbn. lia. }
  split; [unfold Qle; cbn; lia | split; [unfold Qlt; cbn; lia | split; [exact Hidx | ]]].
  destruct (facts_of_shape _ _ Hfacts) as (s0 & s1 & s2 & s3 & ->).
  rewrite (fetchRandomFact_ok _ st _ Hfacts). cbn [snd randomFact].
  change (Z.of_nat (List.length [JStr s0; JStr s1; JStr s2; JStr s3])) with 4%Z.
  rewrite Hidx, Nat2Z.id.
  destruct (Z.ltb_spec (Z.of_nat k) 0); [lia | reflexivity].
Qed.

Lemma every_fact_can_be_selected_witness :
  exists r : Q,
    (0 <= r)%Q /\ (r < 1)%Q
    /\ randomFact (snd (fetchRandomFact r (after (Effect mock_net (JStr "1")) initial)))
       = JStr "Luke Skywalker's birth year is 19BBY.".
Proof.
  destruct (every_fact_can_be_selected (after (Effect mock_net (JStr "1")) initial)
              _ 3%nat facts_of_luke ltac:(lia))
    as (r & Hlo & Hhi & _ & Hfact).
  exists r. split; [exact Hlo | split; [exact Hhi | exact Hfact]].
Defined.

Lemma after_keeps_string_fact :
  forall ev st,
    valid_event ev ->
    (exists s, randomFact st = JStr s) ->
    exists s, randomFact (after ev st) = JStr s.
Proof.
  intros [net id | r] st Hvalid Hfact; unfold after, handle.
  - destruct (Character_effect_keeps net id st) as (_ & Hsame & _).
    rewrite Hsame. exact Hfact.
  - destruct Hvalid as [Hlo Hhi].
    destruct (facts_of (character st)) as [facts | e] eqn:Hfacts.
    + destruct (facts_of_shape _ _ Hfacts) as (s0 & s1 & s2 & s3 & ->).
      rewrite (fetchRandomFact_ok r st _ Hfacts). cbn [snd randomFact].
      change (Z.of_nat (List.length [JStr s0; JStr s1; JStr s2; JStr s3])) with 4%Z.
      rewrite nth_of_four by (apply random_index_range; assumption).
      destruct (random_index r 4 =? 0)%Z; [eexists; reflexivity | ].
      destruct (random_index r 4 =? 1)%Z; [eexists; reflexivity | ].
      destruct (random_index r 4 =? 2)%Z; eexists; reflexivity.
    + rewrite (fetchRandomFact_throw r st e Hfacts). exact Hfact.
Qed.

(** X13: over any run from the initial state in which every click draws its
    number from [[0, 1)], the [randomFact] cell always holds a string (the
    empty string or one of the sentences): the paragraph under the button
    never shows [undefined], whatever was fetched or failed in between. *)
Theorem randomFact_is_always_a_string :
  forall evs : list event,
    Forall valid_event evs ->
    exists s, randomFact (run evs initial) = JStr s.
Proof.
  intros evs Hvalid.
  assert (Hgen : forall st,
             (exists s, randomFact st = JStr s) ->
             exists s, randomFact (run evs st) = JStr s).
  { induction Hvalid as [ | ev evs Hev _ IH]; intros st Hst; [exact Hst | ].
    rewrite run_cons. apply IH. apply after_keeps_string_fact; assumption. }
  apply Hgen. exists "". reflexivity.
Qed.

Lemma randomFact_is_always_a_string_witness :
  exists s,
    randomFact
      (run [Click (1 # 3); Effect mock_net (JStr "1"); Click (5 # 8); Effect offline (JStr "2")]
         initial)
    = JStr s.
Proof.
  apply (randomFact_is_always_a_string
           [Click (1 # 3); Effect mock_net (JStr "1"); Click (5 # 8); Effect offline (JStr "2")]).
  repeat constructor; unfold Qle, Qlt; cbn; lia.
Defined.

(** X14: the JSX of the detail page can be built exactly when the
    [character] cell is neither [null] nor [undefined]; on those two it
    throws a TypeError.  A value of any other shape, such as the API's 404
    body, renders, with each missing field [undefined]. *)
Theorem Character_return_iff :
  forall (c fact : jsval),
    ((exists page, Character_return c fact = Ok page) <-> nullish c = false)
    /\ (nullish c = true -> exists what, Character_return c fact = Throw (TypeError what))
    /\ (forall page,
          Character_return c fact = Ok page ->
          rendered_exprs page
          = [ field c "name"; field c "mass"; field c "hair_color";
              field c "skin_color"; field c "gender"; fact ]).
Proof.
  intros c fact. split; [split | split].
  - intros [page Hpage]. unfold Character_return in Hpage.
    destruct (get_prop c "name") as [name | e] eqn:Hname; [ | discriminate Hpage].
    eapply get_prop_ok_nonnullish; exact Hname.
  - apply Character_return_total.
  - intros Hc. destruct (get_prop_throws c "name" Hc) as [what Hthrow].
    exists what. unfold Character_return. rewrite Hthrow. reflexivity.
  - apply Character_return_fields.
Qed.

Lemma Character_return_iff_witness :
  (exists what, Character_return JUndefined (JStr "") = Throw (TypeError what))
  /\ exists page,
       Character_return not_found (JStr "") = Ok page
       /\ rendered_exprs page
          = [JUndefined; JUndefined; JUndefined; JUndefined; JUndefined; JStr ""].
Proof.
  destruct (Character_return_iff JUndefined (JStr "")) as (_ & Hthrow & _).
  destruct (Character_return_iff not_found (JStr "")) as ([_ Htotal] & _ & Hfields).
  split; [apply Hthrow; reflexivity | ].
  destruct (Htotal eq_refl) as [page Hpage].
  exists page. split; [exact Hpage | ].
  rewrite (Hfields page Hpage). reflexivity.
Defined.

(** ** The pieces of a url *)

Lemma split_from_pieces :
  forall sep s cur,
    String.concat (String sep "") (split_from sep cur s) = cur ++ s
    /\ List.length (split_from sep cur s) = S (occurrences sep s).
Proof.
  intros sep s. induction s as [ | c s IH]; intros cur; cbn [split_from occurrences].
  - cbn. rewrite append_empty_r. split; reflexivity.
  - destruct (Ascii.eqb_spec c sep) as [-> | Hne].
    + destruct (IH "") as [Hjoin Hlen].
      split; [ | cbn [List.length]; rewrite Hlen; reflexivity].
      destruct (split_from sep "" s) as [ | piece pieces] eqn:Hsplit;
        [discriminate Hlen | ].
      cbn [String.concat]. cbn [String.concat] in Hjoin. rewrite Hjoin.
      reflexivity.
    + destruct (IH (cur ++ String c "")) as [Hjoin Hlen].
      rewrite Hjoin, Hlen, append_assoc. split; reflexivity.
Qed.

(** X15: the pieces [url.split('/')] gives, joined again with slashes, are
    the url, and there is one piece more than the url has slashes: the
    position 5 that the list page reads exists exactly when the url has at
    least five slashes. *)
Theorem split_pieces :
  forall u : string,
    String.concat "/" (split "/" u) = u
    /\ List.length (split "/" u) = S (occurrences "/" u)
    /\ (nth_error (split "/" u) 5 <> None <-> (5 <= occurrences "/" u)%nat).
Proof.
  intros u. destruct (split_from_pieces "/" u "") as [Hjoin Hlen].
  unfold split. split; [exact Hjoin | split; [exact Hlen | ]].
  rewrite nth_error_Some, Hlen. lia.
Qed.
